(** * Shallow embedding of the celo-identity contribution pipeline

    JavaScript numbers are modelled as exact rationals [Q]; [Math.round]
    is [floor (x + 1/2)], [Math.min]/[Math.max] are written out as the
    comparisons the engine performs.  Strings are [String.string]. *)

From Stdlib Require Import ZArith QArith Qround Lqa List String Ascii Bool Lia.
Import ListNotations.
Open Scope string_scope.

(** ** JavaScript number helpers *)

(** [Math.min(a, b)] *)
Definition js_min (a b : Q) : Q := if Qlt_le_dec b a then b else a.

(** [Math.max(a, b)] *)
Definition js_max (a b : Q) : Q := if Qlt_le_dec a b then b else a.

(** [Math.round(x)]: nearest integer, halves rounded up. *)
Definition js_round (x : Q) : Z := Qfloor (x + (1#2)).

(** [a === b] on numbers. *)
Definition js_eqn (a b : Q) : bool := Qeq_bool a b.

(** [a > b] on numbers. *)
Definition js_gt (a b : Q) : bool := negb (Qle_bool a b).

(** ** src/lib/ai-verify.ts : data model *)

Record CeloContribution := {
  repoName : string;
  isCeloRepo : bool;
  contributionCount : Q;
  isFork : bool;
  stars : Q;
  language : string
}.

(** The fields of [ContributionAnalysis] that the verifier reads. *)
Record ContributionAnalysis := {
  username : string;
  followers : Q;
  languages : list string;
  specialties : list string;
  celoContributions : list CeloContribution;
  hasCeloContribution : bool;
  celoContributionCount : Q
}.

(** The shape [analyzeGitHubLink] gives an analysis:
    [hasCeloContribution = celoContributions.length > 0] and
    [celoContributionCount] is the sum of the per-repo counts, each a
    non-negative commit count; followers and stars are non-negative. *)
Definition sum_counts (cs : list CeloContribution) : Q :=
  fold_left (fun s c => s + contributionCount c) cs 0.

Definition analysis_wf (a : ContributionAnalysis) : Prop :=
  hasCeloContribution a = negb (Nat.eqb (List.length (celoContributions a)) 0) /\
  celoContributionCount a == sum_counts (celoContributions a) /\
  0 <= followers a /\
  Forall (fun c => 0 <= contributionCount c /\ 0 <= stars c) (celoContributions a).

(** [AIVerificationResult] (the free-text [reasoning] and [keyFindings]
    are left out: no claim reads them). *)
Record AIVerificationResult := {
  authentic : bool;
  impactScore : Q;
  qualityScore : Q;
  authenticity : Q;
  finalScore : Q;
  recommendation : string
}.

(** The opinion returned when no ecosystem repository was found
    (both in [verifyWithAI] and in [generateDefaultVerification]). *)
Definition noCeloResult : AIVerificationResult := {|
  authentic := true;
  impactScore := 0;
  qualityScore := 0;
  authenticity := 0;
  finalScore := 0;
  recommendation := "reject"
|}.

Definition sum_capped_stars (cs : list CeloContribution) : Q :=
  fold_left (fun s r => s + js_min (stars r) 100) cs 0.

(** [generateDefaultVerification(analysis, type)] *)
Definition generateDefaultVerification (analysis : ContributionAnalysis) : AIVerificationResult :=
  if negb (hasCeloContribution analysis) then noCeloResult
  else
    let repoQuality := sum_capped_stars (celoContributions analysis)
                       / inject_Z (Z.of_nat (List.length (celoContributions analysis))) in
    let commitImpact := js_min 100 (celoContributionCount analysis * 5) in
    let impactScore := js_min 100 (followers analysis * (3#2) + commitImpact * (2#5)) in
    let qualityScore := js_min 100 (repoQuality + inject_Z (Z.of_nat (List.length (languages analysis))) * 8) in
    let authenticScore : Q :=
      if js_gt (celoContributionCount analysis) 0 && Qle_bool 0 (followers analysis)
      then 90 else 75 in
    let finalScore := impactScore * (3#10) + qualityScore * (3#10) + authenticScore * (2#5) in
    {| authentic := js_gt (celoContributionCount analysis) 0;
       impactScore := inject_Z (js_round impactScore);
       qualityScore := inject_Z (js_round qualityScore);
       authenticity := inject_Z (js_round authenticScore);
       finalScore := inject_Z (js_round finalScore);
       recommendation :=
         if js_gt finalScore 70 then "accept"
         else if js_gt finalScore 50 then "review" else "reject" |}.

(** The JSON object the oracle's text parses to; [None] is a missing
    (or falsy) field. *)
Record OracleJson := {
  oj_authentic : option bool;
  oj_impactScore : option Q;
  oj_qualityScore : option Q;
  oj_authenticity : option Q;
  oj_finalScore : option Q;
  oj_recommendation : option string
}.

(** What the call to the external model can produce. *)
Inductive OracleReply :=
  | ReplyThrows              (* fetch rejects: transport failure *)
  | ReplyNotOk               (* non-2xx status *)
  | ReplyNoContent           (* no candidates[0].content.parts[0].text *)
  | ReplyNoJson              (* text has no {...} block *)
  | ReplyParseError          (* JSON.parse throws *)
  | ReplyJson (j : OracleJson).

(** [x || 0] on a numeric field. *)
Definition or_zero (o : option Q) : Q := match o with Some x => x | None => 0 end.

Definition clamp100 (x : Q) : Q := js_min 100 (js_max 0 x).

Definition fromOracle (r : OracleJson) : AIVerificationResult := {|
  authentic :=
    match oj_authentic r with
    | Some true => true
    | _ => match oj_authenticity r with Some x => js_gt x 50 | None => false end
    end;
  impactScore := clamp100 (or_zero (oj_impactScore r));
  qualityScore := clamp100 (or_zero (oj_qualityScore r));
  authenticity := clamp100 (or_zero (oj_authenticity r));
  finalScore := clamp100 (or_zero (oj_finalScore r));
  recommendation :=
    match oj_recommendation r with
    | Some s => if String.eqb s "" then "review" else s
    | None => "review"
    end
|}.

(** [verifyWithAI(analysis, type)].  [apiKey] is
    [process.env.GEMINI_API_KEY]; [reply] is what the oracle would answer.
    The boolean is [true] iff the oracle was called ([fetch] ran). *)
Definition verifyWithAI (apiKey : option string) (reply : OracleReply)
    (analysis : ContributionAnalysis) : AIVerificationResult * bool :=
  match apiKey with
  | None | Some "" => (generateDefaultVerification analysis, false)
  | Some _ =>
      if negb (hasCeloContribution analysis) then (noCeloResult, false)
      else match reply with
           | ReplyJson j => (fromOracle j, true)
           | _ => (generateDefaultVerification analysis, true)
           end
  end.

(** ** src/lib/scores.ts *)

Inductive ContributionType :=
  | PR_MERGED | COMMIT | BUG_FIX | DOCUMENTATION | CODE_REVIEW | POST_IMPACT | OTHER.

Definition BASE_SCORES (t : ContributionType) : Z :=
  match t with
  | PR_MERGED => 25 | COMMIT => 10 | BUG_FIX => 20 | DOCUMENTATION => 15
  | CODE_REVIEW => 12 | POST_IMPACT => 30 | OTHER => 10
  end.

(** [calculateFinalScore(aiResult, baseScore, walletVerified)] *)
Definition calculateFinalScore (aiResult : AIVerificationResult) (baseScore : Q)
    (walletVerified : bool) : Z :=
  let IMPACT_DIV := 150 in
  let QUALITY_DIV := 160 in
  let AUTH_DIV := 200 in
  let WALLET_BONUS := 6#5 in
  let MAX_CAP := 3 in
  let NON_AUTH_PEN := 1#4 in
  if js_eqn (finalScore aiResult) 0 || String.eqb (recommendation aiResult) "reject" then 0%Z
  else if negb (authentic aiResult) then js_round (baseScore * NON_AUTH_PEN)
  else
    let impMult := 1 + impactScore aiResult / IMPACT_DIV in
    let qulMult := 1 + qualityScore aiResult / QUALITY_DIV in
    let auMult := 1 + authenticity aiResult / AUTH_DIV in
    let score := baseScore * impMult * qulMult * auMult in
    let score := if walletVerified then score * WALLET_BONUS else score in
    js_round (js_min score (baseScore * MAX_CAP)).

(** The fallback opinion as the specification words it: each score
    clamped to [0, 100], the quality term using the mean star count of the
    ecosystem repositories, and the scores reported unrounded. *)
Definition mean_stars (cs : list CeloContribution) : Q :=
  fold_left (fun s r => s + stars r) cs 0 / inject_Z (Z.of_nat (List.length cs)).

Definition spec_fallback (a : ContributionAnalysis) : AIVerificationResult :=
  let commits := celoContributionCount a in
  let impact := clamp100 (followers a * (3#2) + js_min (commits * 5) 100 * (2#5)) in
  let quality := clamp100 (mean_stars (celoContributions a)
                           + inject_Z (Z.of_nat (List.length (languages a))) * 8) in
  let auth : Q := if js_gt commits 0 then 90 else 75 in
  let final := (3#10) * impact + (3#10) * quality + (2#5) * auth in
  {| authentic := js_gt commits 0;
     impactScore := impact; qualityScore := quality;
     authenticity := auth; finalScore := final;
     recommendation :=
       if js_gt final 70 then "accept" else if js_gt final 50 then "review" else "reject" |}.

(** The fallback as the code computes it, written formula by formula:
    no-ecosystem gate first, per-repository stars capped at 100 before the
    mean, reported scores rounded, recommendation from the unrounded final. *)
Definition amended_fallback (a : ContributionAnalysis) : AIVerificationResult :=
  if negb (hasCeloContribution a) then noCeloResult
  else
    let commits := celoContributionCount a in
    let impact := js_min 100 (followers a * (3#2) + js_min 100 (commits * 5) * (2#5)) in
    let quality := js_min 100 (sum_capped_stars (celoContributions a)
                                 / inject_Z (Z.of_nat (List.length (celoContributions a)))
                               + inject_Z (Z.of_nat (List.length (languages a))) * 8) in
    let auth : Q := if js_gt commits 0 then 90 else 75 in
    let final := impact * (3#10) + quality * (3#10) + auth * (2#5) in
    {| authentic := js_gt commits 0;
       impactScore := inject_Z (js_round impact);
       qualityScore := inject_Z (js_round quality);
       authenticity := inject_Z (js_round auth);
       finalScore := inject_Z (js_round final);
       recommendation :=
         if js_gt final 70 then "accept" else if js_gt final 50 then "review" else "reject" |}.

(** The oracle is unavailable: no key, or any reply other than a parsed
    JSON object. *)
Definition oracle_unavailable (apiKey : option string) (reply : OracleReply) : Prop :=
  match apiKey, reply with
  | None, _ | Some "", _ => True
  | _, ReplyJson _ => False
  | _, _ => True
  end.

(** Replace the three sub-scores of an opinion, keeping the rest. *)
Definition with_scores (r : AIVerificationResult) (i q a : Q) : AIVerificationResult :=
  {| authentic := authentic r; impactScore := i; qualityScore := q;
     authenticity := a; finalScore := finalScore r;
     recommendation := recommendation r |}.

(** ** src/agent/scorer.ts and src/agent/executor.ts *)

(** [checkTierQualification(totalScore)] *)
Definition checkTierQualification (totalScore : Z) : option string :=
  if (700 <=? totalScore)%Z then Some "LEADER"
  else if (300 <=? totalScore)%Z then Some "CONTRIBUTOR"
  else if (100 <=? totalScore)%Z then Some "BUILDER"
  else None.

(** How one ledger mutation ends: its receipt arrives with a hash, or the
    send or the [wait()] throws with a message. *)
Inductive StepOutcome :=
  | Confirmed (hash : string)
  | Fails (msg : string).

(** The ledger calls the orchestrator makes, in order. *)
Inductive LedgerCall :=
  | CallRegister (delta : Z)
  | CallIncrease (delta : Z)
  | CallMint (tier : string).

Record ExecutionResult := {
  success : bool;
  registryTx : option string;
  scoreTx : option string;
  badgeTx : option string;
  error : option string
}.

(** [receipt?.hash || receipt?.transactionHash]: an empty hash is falsy. *)
Definition receipt_hash (h : string) : option string :=
  if String.eqb h "" then None else Some h.

Definition set_registryTx (r : ExecutionResult) (h : option string) : ExecutionResult :=
  {| success := success r; registryTx := h; scoreTx := scoreTx r;
     badgeTx := badgeTx r; error := error r |}.
Definition set_scoreTx (r : ExecutionResult) (h : option string) : ExecutionResult :=
  {| success := success r; registryTx := registryTx r; scoreTx := h;
     badgeTx := badgeTx r; error := error r |}.
Definition set_badgeTx (r : ExecutionResult) (h : option string) : ExecutionResult :=
  {| success := success r; registryTx := registryTx r; scoreTx := scoreTx r;
     badgeTx := h; error := error r |}.
Definition set_success (r : ExecutionResult) : ExecutionResult :=
  {| success := true; registryTx := registryTx r; scoreTx := scoreTx r;
     badgeTx := badgeTx r; error := error r |}.
Definition set_error (r : ExecutionResult) (m : string) : ExecutionResult :=
  {| success := success r; registryTx := registryTx r; scoreTx := scoreTx r;
     badgeTx := badgeTx r; error := Some m |}.

Definition init_result : ExecutionResult :=
  {| success := false; registryTx := None; scoreTx := None; badgeTx := None; error := None |}.

(** [executeOnchain(contribution, scoreDelta, currentTotalScore,
    newTotalScore)]: [reg], [inc] and [mint] are how the three ledger
    mutations would end.  Returns the result and the ledger calls made.
    A thrown error jumps to the [catch], which records its message. *)
Definition executeOnchain (reg inc mint : StepOutcome)
    (scoreDelta currentTotalScore newTotalScore : Z) : ExecutionResult * list LedgerCall :=
  let result := init_result in
  match reg with
  | Fails m => (set_error result m, [CallRegister scoreDelta])
  | Confirmed h1 =>
    let result := set_registryTx result (receipt_hash h1) in
    match inc with
    | Fails m => (set_error result m, [CallRegister scoreDelta; CallIncrease scoreDelta])
    | Confirmed h2 =>
      let result := set_scoreTx result (receipt_hash h2) in
      match checkTierQualification newTotalScore with
      | None => (set_success result, [CallRegister scoreDelta; CallIncrease scoreDelta])
      | Some qualifyingTier =>
        let calls := [CallRegister scoreDelta; CallIncrease scoreDelta; CallMint qualifyingTier] in
        match mint with
        | Fails m => (set_error result m, calls)
        | Confirmed h3 => (set_success (set_badgeTx result (receipt_hash h3)), calls)
        end
      end
    end
  end.

(** [s] occurs in [m] (JavaScript [m.includes(s)]). *)
Definition includes (m s : string) : bool :=
  match String.index 0 s m with Some _ => true | None => false end.

(** ** Strings and bytes as JavaScript and Node's [Buffer] see them *)

(** [String.prototype.toLowerCase] on the code points a Rocq [ascii]
    can hold (U+0000..U+00FF): A-Z and the Latin-1 capitals except U+00D7. *)
Definition js_lower_char (c : ascii) : ascii :=
  let n := nat_of_ascii c in
  if (Nat.leb 65 n && Nat.leb n 90) || (Nat.leb 192 n && Nat.leb n 222 && negb (Nat.eqb n 215))
  then ascii_of_nat (n + 32)%nat else c.

Definition js_toLowerCase (s : string) : string :=
  string_of_list_ascii (List.map js_lower_char (list_ascii_of_string s)).

(** UTF-8 encoding of one code point below U+0100. *)
Definition utf8_char (c : ascii) : list Z :=
  let n := Z.of_nat (nat_of_ascii c) in
  if (n <? 128)%Z then [n] else [192 + n / 64; 128 + n mod 64]%Z.

(** [Buffer.from(s)] *)
Definition buffer_from (s : string) : list Z :=
  flat_map utf8_char (list_ascii_of_string s).

Definition hex_digit (d : Z) : ascii :=
  ascii_of_nat (Z.to_nat (if (d <? 10)%Z then 48 + d else 87 + d)).

(** [buf.toString("hex")]: two lowercase digits per byte. *)
Definition to_hex (bs : list Z) : list ascii :=
  flat_map (fun b => [hex_digit (b / 16); hex_digit (b mod 16)]) bs.

Definition hex_value (c : ascii) : Z :=
  let n := Z.of_nat (nat_of_ascii c) in
  if (n <=? 57)%Z then n - 48 else if (n <=? 70)%Z then n - 55 else n - 87.

(** [BigInt("0x" + h)] for a string of hex digits; an empty [h] is a
    [SyntaxError] ([None]). *)
Definition bigint_of_hex (h : list ascii) : option Z :=
  match h with
  | [] => None
  | _ => Some (fold_left (fun acc c => acc * 16 + hex_value c)%Z h 0%Z)
  end.

(** ** src/agent/badges.ts and src/lib/badge-minting.ts *)

(** Agent side: [generateBadgeTokenId(userAddress, tier)] keeps 64 hex digits. *)
Definition generateBadgeTokenId_agent (userAddress tier : string) : option Z :=
  let combined := js_toLowerCase userAddress ++ tier in
  let hash := to_hex (buffer_from combined) in
  bigint_of_hex (firstn 64 hash).

(** Client side: the same construction keeping 62 hex digits. *)
Definition generateBadgeTokenId_client (userAddress tier : string) : option Z :=
  let combined := js_toLowerCase userAddress ++ tier in
  let hash := to_hex (buffer_from combined) in
  bigint_of_hex (firstn 62 hash).

(** ** src/lib/supabase.ts : the [user_tiers] table *)

Record UserTier := {
  user_address : string;
  current_tier : string;
  total_score : Z;
  builder_achieved_at : option string;
  contributor_achieved_at : option string;
  leader_achieved_at : option string;
  updated_at : option string
}.

(** [existing?.x || now]: a missing row, a missing field or an empty
    string all yield [now]. *)
Definition or_now (o : option string) (now : string) : string :=
  match o with Some v => if String.eqb v "" then now else v | None => now end.

(** [updateUserTier(userAddress, newScore, newTier)] with the database
    answering: [existing] is the row [.single()] read back, [now] the
    timestamp.  The [tierData] object only carries the keys the code sets
    ([None] = key absent); [.update] leaves absent columns as they were and
    [.insert] leaves them null. *)
Definition updateUserTier (existing : option UserTier) (userAddress : string)
    (newScore : Z) (newTier now : string) : UserTier :=
  let address := js_toLowerCase userAddress in
  let not_existing := match existing with None => true | Some _ => false end in
  let ex_tier := match existing with Some e => current_tier e | None => "" end in
  let ex_field (f : UserTier -> option string) :=
    match existing with Some e => f e | None => None end in
  (* builder_achieved_at, contributor_achieved_at, leader_achieved_at keys *)
  let b1 := if String.eqb newTier "BUILDER" && (not_existing || String.eqb ex_tier "UNRANKED")
            then Some now else None in
  let '(c2, b2) :=
    if String.eqb newTier "CONTRIBUTOR" && (not_existing || negb (String.eqb ex_tier "CONTRIBUTOR"))
    then (Some now, Some (or_now (ex_field builder_achieved_at) now)) else (None, b1) in
  let '(l3, c3, b3) :=
    if String.eqb newTier "LEADER"
    then (Some now, Some (or_now (ex_field contributor_achieved_at) now),
          Some (or_now (ex_field builder_achieved_at) now))
    else (None, c2, b2) in
  let keep (patch : option string) (f : UserTier -> option string) :=
    match patch with Some v => Some v | None => ex_field f end in
  {| user_address := address; current_tier := newTier; total_score := newScore;
     builder_achieved_at := keep b3 builder_achieved_at;
     contributor_achieved_at := keep c3 contributor_achieved_at;
     leader_achieved_at := keep l3 leader_achieved_at;
     updated_at := Some now |}.

(** ** src/lib/supabase.ts : the [contributions] table and history *)

(** A row of [contributions]; [sc_id] orders rows by [created_at]. *)
Record StoredContribution := {
  sc_id : nat;
  sc_user_address : string;
  sc_contribution_type : string;
  sc_score : Z;
  sc_github_link : string;
  sc_status : string;
  sc_on_chain_tx : option string
}.

Record ReputationRecord := {
  rr_user_address : string;
  rr_score_delta : Z;
  rr_total_score : Z
}.

(** The database the route and the client write to. *)
Record Db := {
  contributions : list StoredContribution;
  user_tiers : list UserTier;
  reputation_history : list ReputationRecord
}.

Definition set_contributions (db : Db) (t : list StoredContribution) : Db :=
  {| contributions := t; user_tiers := user_tiers db; reputation_history := reputation_history db |}.

(** [saveContribution(contribution)]: [insertOk] is whether the insert
    returns a row.  The stored status is always ['pending']. *)
Definition saveContribution (tbl : list StoredContribution) (newId : nat) (insertOk : bool)
    (user_address contribution_type : string) (score : Z) (github_link status : string)
    : bool * list StoredContribution :=
  if String.eqb user_address "" then (false, tbl)
  else if String.eqb contribution_type "" then (false, tbl)
  else if (score <? 0)%Z then (false, tbl)
  else if String.eqb github_link "" then (false, tbl)
  else if negb insertOk then (false, tbl)
  else (true, tbl ++ [ {| sc_id := newId; sc_user_address := js_toLowerCase user_address;
                          sc_contribution_type := contribution_type; sc_score := score;
                          sc_github_link := github_link; sc_status := "pending";
                          sc_on_chain_tx := None |} ])%list.

(** The most recent row of a list (largest [created_at]). *)
Definition most_recent (l : list StoredContribution) : option StoredContribution :=
  fold_left (fun acc c => match acc with
                          | Some d => if Nat.ltb (sc_id d) (sc_id c) then Some c else Some d
                          | None => Some c end) l None.

Definition mark_verified (target : nat) (tx : string) (c : StoredContribution) : StoredContribution :=
  if Nat.eqb (sc_id c) target
  then {| sc_id := sc_id c; sc_user_address := sc_user_address c;
          sc_contribution_type := sc_contribution_type c; sc_score := sc_score c;
          sc_github_link := sc_github_link c; sc_status := "verified";
          sc_on_chain_tx := Some tx |}
  else c.

(** [updateContributionWithTx(userAddress, score, onChainTx)]: marks the
    most recent pending row of that address with that score; [dbOk] is
    whether the select and the update go through. *)
Definition updateContributionWithTx (tbl : list StoredContribution) (userAddress : string)
    (score : Z) (onChainTx : string) (dbOk : bool) : bool * list StoredContribution :=
  let normalizedAddress := js_toLowerCase userAddress in
  if negb dbOk then (false, tbl) else
  let pendingContribs :=
    filter (fun c => String.eqb (sc_user_address c) normalizedAddress
                     && Z.eqb (sc_score c) score && String.eqb (sc_status c) "pending") tbl in
  match most_recent pendingContribs with
  | None => (false, tbl)
  | Some contributionToUpdate =>
      let tbl' := List.map (mark_verified (sc_id contributionToUpdate) onChainTx) tbl in
      (* the row is written before the post-update validation *)
      if String.eqb onChainTx "" then (false, tbl') else (true, tbl')
  end.

(** [getUserTier(userAddress)].tier: [readOk] is whether the select
    succeeds (a missing row is a success with no tier). *)
Definition find_tier (rows : list UserTier) (address : string) : option UserTier :=
  find (fun r => String.eqb (user_address r) address) rows.

Definition getUserTier (db : Db) (readOk : bool) (userAddress : string) : option UserTier :=
  if readOk then find_tier (user_tiers db) (js_toLowerCase userAddress) else None.

Definition upsert_tier (rows : list UserTier) (r : UserTier) : list UserTier :=
  match find_tier rows (user_address r) with
  | Some _ => List.map (fun x => if String.eqb (user_address x) (user_address r) then r else x) rows
  | None => (rows ++ [r])%list
  end.

(** ** src/app/api/contributions/submit/route.ts (after the ownership check) *)

Inductive Response :=
  | RespError (status : Z)
  | RespSuccess (score newTotalScore : Z) (newTier contributionStatus : string).

Definition tier_of_total (newTotalScore : Z) : string :=
  if (700 <=? newTotalScore)%Z then "LEADER"
  else if (300 <=? newTotalScore)%Z then "CONTRIBUTOR"
  else if (100 <=? newTotalScore)%Z then "BUILDER" else "UNRANKED".

(** How each database call of one request ends. *)
Record DbOutcomes := {
  insertOk : bool;        (* saveContribution's insert *)
  readOk : bool;          (* getUserTier's select *)
  tierWriteOk : bool;     (* updateUserTier's update/insert *)
  historyOk : bool        (* recordReputationHistory's insert *)
}.

(** The rest of [POST] once the wallet matched: score, refuse, or save and
    answer.  [normalizedProvided] is the checksummed declared address,
    [now] the clock, [newId] the id the insert would get. *)
Definition submit_after_ownership (db : Db) (newId : nat) (now : string) (o : DbOutcomes)
    (normalizedProvided type link : string) (aiResult : AIVerificationResult)
    (baseScore : Q) (walletIsVerified : bool) : Response * Db :=
  let finalScore := calculateFinalScore aiResult baseScore walletIsVerified in
  if Z.eqb finalScore 0 || String.eqb (recommendation aiResult) "reject" then (RespError 400, db)
  else
    let status := if String.eqb (recommendation aiResult) "accept" then "verified" else "pending" in
    let address := js_toLowerCase normalizedProvided in
    let (_, tbl1) := saveContribution (contributions db) newId (insertOk o)
                       address type finalScore link status in
    let db1 := set_contributions db tbl1 in
    let currentTotalScore :=
      match getUserTier db1 (readOk o) address with Some t => total_score t | None => 0%Z end in
    let newTotalScore := (currentTotalScore + finalScore)%Z in
    let newTier := tier_of_total newTotalScore in
    let tiers2 :=
      if tierWriteOk o
      then upsert_tier (user_tiers db1)
             (updateUserTier (find_tier (user_tiers db1) address) address newTotalScore newTier now)
      else user_tiers db1 in
    let hist3 :=
      if historyOk o
      then (reputation_history db1 ++ [ {| rr_user_address := address; rr_score_delta := finalScore;
                                           rr_total_score := newTotalScore |} ])%list
      else reputation_history db1 in
    (RespSuccess finalScore newTotalScore newTier status,
     {| contributions := tbl1; user_tiers := tiers2; reputation_history := hist3 |}).

(** ** src/components/submit-contribution.tsx : one submission end to end *)

Record Submission := {
  s_address : string;               (* connected wallet, already checksummed *)
  s_type : string;
  s_link : string;
  s_ai : AIVerificationResult;
  s_base : Q;
  s_db : DbOutcomes;
  s_chain : StepOutcome;            (* updateOnChainScore: increase(address, score) *)
  s_markOk : bool                   (* updateContributionWithTx's database calls *)
}.

(** The request, then, on success with a positive score and no reject,
    the client's score-increase transaction and, once it is confirmed,
    [updateContributionWithTx].  Returns the database and whether the
    ledger was called. *)
Definition submission_flow (db : Db) (newId : nat) (now : string) (s : Submission) : Db * bool :=
  match submit_after_ownership db newId now (s_db s) (s_address s) (s_type s) (s_link s)
          (s_ai s) (s_base s) true with
  | (RespError _, db1) => (db1, false)
  | (RespSuccess score _ _ _, db1) =>
      if (0 <? score)%Z && negb (String.eqb (recommendation (s_ai s)) "reject") then
        match s_chain s with
        | Fails _ => (db1, true)
        | Confirmed txHash =>
            (set_contributions db1
               (snd (updateContributionWithTx (contributions db1) (s_address s) score txHash (s_markOk s))),
             true)
        end
      else (db1, false)
  end.

(** Submissions one after another; the [k]-th gets row id [k]. *)
Fixpoint run_from (db : Db) (k : nat) (now : string) (subs : list Submission) : Db :=
  match subs with
  | [] => db
  | s :: rest => run_from (fst (submission_flow db k now s)) (S k) now rest
  end.

Definition empty_db : Db := {| contributions := []; user_tiers := []; reputation_history := [] |}.

(** ** Keccak-256 (the hash behind [ethers.getAddress]'s checksum)

    Keccak-f[1600] on 25 lanes of 64 bits, index [x + 5*y]; rate 136
    bytes, Keccak padding [0x01 .. 0x80]. *)
Module Keccak.
Local Open Scope Z_scope.

Definition mask64 : Z := Z.ones 64.
Definition rotl64 (x : Z) (n : Z) : Z :=
  Z.land (Z.lor (Z.shiftl x n) (Z.shiftr x (64 - n))) mask64.

Definition keccak_rc : list Z :=
  [0x0000000000000001; 0x0000000000008082; 0x800000000000808A; 0x8000000080008000;
   0x000000000000808B; 0x0000000080000001; 0x8000000080008081; 0x8000000000008009;
   0x000000000000008A; 0x0000000000000088; 0x0000000080008009; 0x000000008000000A;
   0x000000008000808B; 0x800000000000008B; 0x8000000000008089; 0x8000000000008003;
   0x8000000000008002; 0x8000000000000080; 0x000000000000800A; 0x800000008000000A;
   0x8000000080008081; 0x8000000000008080; 0x0000000080000001; 0x8000000080008008].

(* rotation offsets, index x + 5*y *)
Definition keccak_rho : list Z :=
  [0; 1; 62; 28; 27;
   36; 44; 6; 55; 20;
   3; 10; 43; 25; 39;
   41; 45; 15; 21; 8;
   18; 2; 61; 56; 14].

Definition lane (a : list Z) (x y : nat) : Z := nth (x mod 5 + 5 * (y mod 5)) a 0.

Definition idx25 : list (nat * nat) :=
  flat_map (fun y => map (fun x => (x, y)) (seq 0 5)) (seq 0 5).

Definition theta (a : list Z) : list Z :=
  let c x := fold_left Z.lxor (map (fun y => lane a x y) (seq 0 5)) 0 in
  let d x := Z.lxor (c ((x + 4) mod 5)%nat) (rotl64 (c ((x + 1) mod 5)%nat) 1) in
  map (fun '(x, y) => Z.lxor (lane a x y) (d x)) idx25.

(* B[y, 2x+3y] = rot(A[x,y], r[x,y]); so B[x',y'] with x' = y, y' = 2x+3y:
   given (x',y'), x = (x' + 3 y') mod 5 ... solve: y = x', 2x = y' - 3x' *)
Definition rho_pi (a : list Z) : list Z :=
  map (fun '(x', y') =>
         let y := x' in
         let x := ((y' + 2 * x') * 3 mod 5)%nat in
         rotl64 (lane a x y) (nth (x + 5 * y) keccak_rho 0)) idx25.

Definition chi (b : list Z) : list Z :=
  map (fun '(x, y) =>
         Z.lxor (lane b x y)
                (Z.land (Z.lxor (lane b (x + 1) y) mask64) (lane b (x + 2) y))) idx25.

Definition iota (a : list Z) (rc : Z) : list Z :=
  match a with [] => [] | a0 :: rest => Z.lxor a0 rc :: rest end.

Definition keccak_round (a : list Z) (rc : Z) : list Z := iota (chi (rho_pi (theta a))) rc.

Definition keccak_f (a : list Z) : list Z := fold_left keccak_round keccak_rc a.

Definition lane_of_bytes (bs : list Z) : Z :=
  fold_right (fun b acc => b + 256 * acc) 0 bs.
Definition bytes_of_lane (w : Z) : list Z :=
  map (fun i => Z.land (Z.shiftr w (8 * Z.of_nat i)) 255) (seq 0 8).

Fixpoint chunks (n : nat) (fuel : nat) (l : list Z) : list (list Z) :=
  match fuel with
  | O => []
  | S f => match l with [] => [] | _ => firstn n l :: chunks n f (skipn n l) end
  end.

Definition keccak_pad (msg : list Z) : list Z :=
  let r := 136%nat in
  let k := (r - (List.length msg mod r))%nat in
  if Nat.eqb k 1 then msg ++ [0x81]
  else msg ++ [0x01] ++ repeat 0 (k - 2) ++ [0x80].

Definition absorb (st : list Z) (block : list Z) : list Z :=
  let lanes := map lane_of_bytes (chunks 8 17 block) in
  keccak_f (map (fun '(i, s) => Z.lxor s (nth i lanes 0))
                (combine (seq 0 25) st)).

Definition keccak256 (msg : list Z) : list Z :=
  let p := keccak_pad msg in
  let st := fold_left absorb (chunks 136 (List.length p) p) (repeat 0 25) in
  firstn 32 (flat_map bytes_of_lane st).

End Keccak.

(** ** ethers v6 [getAddress] and the bio scan of src/lib/ai-verify.ts *)

Definition char_between (lo hi : nat) (c : ascii) : bool :=
  Nat.leb lo (nat_of_ascii c) && Nat.leb (nat_of_ascii c) hi.

Definition is_digit := char_between 48 57.
Definition is_upper_hex_letter := char_between 65 70.
Definition is_lower_hex_letter := char_between 97 102.
Definition is_hex_char (c : ascii) : bool :=
  is_digit c || is_upper_hex_letter c || is_lower_hex_letter c.
Definition is_alnum (c : ascii) : bool :=
  is_digit c || char_between 65 90 c || char_between 97 122 c.

(** [toUpperCase] on ASCII; it is applied only to strings a regular
    expression has already confined to ASCII. *)
Definition js_upper_char (c : ascii) : ascii :=
  if char_between 97 122 c then ascii_of_nat (nat_of_ascii c - 32) else c.

Definition char_code (c : ascii) : Z := Z.of_nat (nat_of_ascii c).

Fixpoint mapi_from {A B : Type} (i : nat) (f : nat -> A -> B) (l : list A) : list B :=
  match l with [] => [] | x :: r => f i x :: mapi_from (S i) f r end.

(** [getChecksumAddress(address)]: hash the 40 lowercase characters after
    [0x] as bytes; a character becomes uppercase when its nibble of the hash
    is at least 8. *)
Definition getChecksumAddress (address : list ascii) : list ascii :=
  let address := List.map js_lower_char address in
  let chars := skipn 2 address in
  let expanded := List.map char_code (firstn 40 chars) in
  let hashed := Keccak.keccak256 expanded in
  let upd (i : nat) (c : ascii) :=
    if Nat.ltb i 40 then
      let h := nth (Nat.div i 2) hashed 0%Z in
      let nibble := if Nat.even i then Z.shiftr h 4 else Z.land h 15 in
      if (8 <=? nibble)%Z then js_upper_char c else c
    else c in
  "0"%char :: "x"%char :: mapi_from 0 upd chars.

Definition starts_0x (l : list ascii) : bool :=
  match l with "0"%char :: "x"%char :: _ => true | _ => false end.

(** [/^(0x)?[0-9a-fA-F]{40}$/] *)
Definition hex40_form (l : list ascii) : bool :=
  (Nat.eqb (List.length l) 42 && starts_0x l && forallb is_hex_char (skipn 2 l)) ||
  (Nat.eqb (List.length l) 40 && forallb is_hex_char l).

(** [/([A-F].*[a-f])|([a-f].*[A-F])/] *)
Definition mixed_case (l : list ascii) : bool :=
  existsb is_upper_hex_letter l && existsb is_lower_hex_letter l.

(** [/^XE[0-9]{2}[0-9A-Za-z]{30,31}$/] *)
Definition icap_form (l : list ascii) : bool :=
  match l with
  | "X"%char :: "E"%char :: d1 :: d2 :: rest =>
      is_digit d1 && is_digit d2 && forallb is_alnum rest &&
      (Nat.eqb (List.length rest) 30 || Nat.eqb (List.length rest) 31)
  | _ => false
  end.

(** Decimal digits of [ibanLookup] for one (uppercased) character. *)
Definition iban_digits (c : ascii) : list Z :=
  if is_digit c then [char_code c - 48]%Z
  else let v := (char_code c - 55)%Z in [v / 10; v mod 10]%Z.

(** [ibanChecksum(address)] as a number; the block-wise [% 97] of the
    source computes the residue of the whole decimal expansion. *)
Definition ibanChecksum (address : list ascii) : Z :=
  let address := List.map js_upper_char address in
  let address := (skipn 4 address ++ firstn 2 address ++ ["0"; "0"]%char)%list in
  let expanded := flat_map iban_digits address in
  let n := fold_left (fun acc d => acc * 10 + d)%Z expanded 0%Z in
  (98 - n mod 97)%Z.

(** [fromBase36(value)] *)
Definition fromBase36 (value : list ascii) : Z :=
  fold_left (fun acc c =>
    let c := js_lower_char c in
    (acc * 36 + (if is_digit c then char_code c - 48 else char_code c - 87))%Z) value 0%Z.

(** [n.toString(16)] *)
Fixpoint hex_digits_rev (fuel : nat) (n : Z) : list ascii :=
  match fuel with
  | O => []
  | S f => if (n <? 16)%Z then [hex_digit n] else hex_digit (n mod 16) :: hex_digits_rev f (n / 16)
  end.
Definition to_hex_string (n : Z) : list ascii := rev (hex_digits_rev 64 n).

Definition pad_left_zeros (l : list ascii) : list ascii :=
  (repeat "0"%char (40 - List.length l) ++ l)%list.

Fixpoint ascii_list_eqb (a b : list ascii) : bool :=
  match a, b with
  | [], [] => true
  | x :: a', y :: b' => Ascii.eqb x y && ascii_list_eqb a' b'
  | _, _ => false
  end.

(** [getAddress(address)]; [None] is a thrown error. *)
Definition getAddress_list (l : list ascii) : option (list ascii) :=
  if hex40_form l then
    let address := if starts_0x l then l else ("0"%char :: "x"%char :: l) in
    let result := getChecksumAddress address in
    if mixed_case address && negb (ascii_list_eqb result address) then None
    else Some result
  else if icap_form l then
    let given := (10 * (char_code (nth 2 l "0"%char) - 48) + (char_code (nth 3 l "0"%char) - 48))%Z in
    if negb (Z.eqb given (ibanChecksum l)) then None
    else Some (getChecksumAddress ("0"%char :: "x"%char ::
                                   pad_left_zeros (to_hex_string (fromBase36 (skipn 4 l)))))
  else None.

Definition getAddress (address : string) : option string :=
  option_map string_of_list_ascii (getAddress_list (list_ascii_of_string address)).

(** The first match of [/0x[a-fA-F0-9]{40}/g] in a character list. *)
Fixpoint first_wallet (l : list ascii) : option (list ascii) :=
  match l with
  | [] => None
  | _ :: rest =>
      if starts_0x l && Nat.leb 42 (List.length l) && forallb is_hex_char (firstn 40 (skipn 2 l))
      then Some (firstn 42 l) else first_wallet rest
  end.

(** [extractWalletFromText(text)] *)
Definition extractWalletFromText (text : option string) : option string :=
  match text with
  | None => None
  | Some t => if String.eqb t "" then None
              else option_map string_of_list_ascii (first_wallet (list_ascii_of_string t))
  end.

(** [normalizeAddress(address)] *)
Definition normalizeAddress (address : string) : option string := getAddress address.

Inductive OwnershipOutcome :=
  | OwnRejected (reason : string)       (* a 400 response *)
  | OwnConfirmed (normalizedProvided : string).

(** The ownership part of [POST]: [address] is the declared wallet, [bio]
    the GitHub bio ([detectedWallet] is the normalised first match). *)
Definition ownership_check (bio : option string) (address : string) : OwnershipOutcome :=
  if String.eqb address "" then OwnRejected "address, type and github link are required"
  else
    let bioWallet := match extractWalletFromText bio with
                     | Some w => normalizeAddress w | None => None end in
    match bioWallet with
    | None => OwnRejected "no wallet in bio"
    | Some bw =>
        match getAddress address with
        | None => OwnRejected "invalid address format"
        | Some normalizedProvided =>
            if String.eqb (js_toLowerCase normalizedProvided) (js_toLowerCase bw)
            then OwnConfirmed normalizedProvided
            else OwnRejected "wallet mismatch"
        end
    end.

(** A bio carrying the lowercase form of an EIP-55 test address, and
    declared addresses that differ from it in letter case only. *)
Definition ex_bio : option string :=
  Some "Builder on Celo. wallet: 0x5aaeb6053f3e94c9b9a09f33669435e7ef1beaed".
Definition ex_bio_wallet : string := "0x5aaeb6053f3e94c9b9a09f33669435e7ef1beaed".
(** The checksummed form with its last letter's case flipped. *)
Definition ex_flipped : string := "0x5aAeb6053F3E94C9b9A09f33669435E7Ef1BeAeD".
Definition ex_upper : string := "0x5AAEB6053F3E94C9B9A09F33669435E7EF1BEAED".

(** An accepted, authentic opinion. *)
Definition ex_opinion : AIVerificationResult := {|
  authentic := true; impactScore := 60; qualityScore := 70;
  authenticity := 90; finalScore := 75; recommendation := "accept"
|}.

(** ** src/agent/scorer.ts : [calculateScore] *)

Inductive AgentContributionType :=
  | Agent_PR_MERGED | Agent_COMMIT | Agent_POST_IMPACT
  | Agent_CODE_REVIEW | Agent_DOCUMENTATION | Agent_BUG_FIX.

Definition agent_type_name (t : AgentContributionType) : string :=
  match t with
  | Agent_PR_MERGED => "PR_MERGED" | Agent_COMMIT => "COMMIT"
  | Agent_POST_IMPACT => "POST_IMPACT" | Agent_CODE_REVIEW => "CODE_REVIEW"
  | Agent_DOCUMENTATION => "DOCUMENTATION" | Agent_BUG_FIX => "BUG_FIX"
  end.

(** The agent's [baseScores] (every type has a non-zero entry, so the
    [|| 0] of [calculateScore] never fires). *)
Definition baseScores (t : AgentContributionType) : Z :=
  match t with
  | Agent_PR_MERGED => 20 | Agent_COMMIT => 3 | Agent_POST_IMPACT => 5
  | Agent_CODE_REVIEW => 8 | Agent_DOCUMENTATION => 10 | Agent_BUG_FIX => 15
  end.

(** The fields of the agent's [Contribution] that the scorer reads. *)
Record AgentContribution := {
  ac_user : string;
  ac_type : AgentContributionType;
  ac_description : string
}.

Definition spamPatterns : list string :=
  ["test"; "temp"; "wip"; "draft"; "placeholder"; "random"; "dummy"].

(** [isSpam(contribution)] *)
Definition isSpam (contribution : AgentContribution) : bool :=
  let desc := js_toLowerCase (ac_description contribution) in
  if existsb (fun pattern => includes desc pattern && Nat.ltb (String.length desc) 20) spamPatterns
  then true
  else if Nat.ltb (String.length (ac_description contribution)) 5 then true
  else false.

(** [calculateMultiplier(contribution)] *)
Definition calculateMultiplier (contribution : AgentContribution) : Q :=
  let multiplier := 1 in
  let desc := js_toLowerCase (ac_description contribution) in
  let multiplier := if isSpam contribution then multiplier * (3#10) else multiplier in
  let multiplier := if includes desc "major" || includes desc "critical"
                    then multiplier * (3#2) else multiplier in
  let multiplier := if includes desc "security" || includes desc "vulnerability"
                    then multiplier * (9#5) else multiplier in
  let multiplier := if includes desc "refactor" || includes desc "optimization"
                    then multiplier * (6#5) else multiplier in
  let is_commit := match ac_type contribution with Agent_COMMIT => true | _ => false end in
  let multiplier := if is_commit && Nat.ltb 50 (String.length desc)
                    then multiplier * (11#10) else multiplier in
  js_min 2 (js_max (1#2) multiplier).

(** Decimal digits of a non-negative integer ([String(n)]). *)
Fixpoint dec_digits_rev (fuel : nat) (n : Z) : list ascii :=
  match fuel with
  | O => []
  | S f => if (n <? 10)%Z then [hex_digit n] else hex_digit (n mod 10) :: dec_digits_rev f (n / 10)
  end.

Definition js_int_to_string (n : Z) : string :=
  if (n <? 0)%Z then "-" ++ string_of_list_ascii (rev (dec_digits_rev 64 (- n)))
  else string_of_list_ascii (rev (dec_digits_rev 64 n)).

(** [s.replace(/_/g, " ")] *)
Definition replace_underscores (s : string) : string :=
  string_of_list_ascii
    (List.map (fun c => if Ascii.eqb c "_" then " "%char else c) (list_ascii_of_string s)).

(** [generateExplanation(contribution, baseScore, multiplier, finalScore)] *)
Definition generateExplanation (contribution : AgentContribution) (baseScore : Z)
    (multiplier : Q) (finalScore : Z) : string :=
  let typeLabel := replace_underscores (agent_type_name (ac_type contribution)) in
  let parts := [typeLabel ++ " contribution scored at " ++ js_int_to_string baseScore ++ " base points"] in
  let parts := if js_gt multiplier (6#5) then app parts ["High-impact contribution - bonus applied"]
               else if js_gt (4#5) multiplier
                    then app parts ["Low-impact or spam signals detected - penalty applied"]
                    else parts in
  let parts := app parts ["Final score: " ++ js_int_to_string finalScore ++ " points"] in
  match parts with
  | [] => ""
  | p :: rest => fold_left (fun acc x => acc ++ ". " ++ x) rest p
  end.

Record ScoringResult := {
  sr_baseScore : Z;
  sr_multiplier : Q;
  sr_finalScore : Z;
  sr_explanation : string
}.

(** [calculateScore(contribution)] *)
Definition calculateScore (contribution : AgentContribution) : ScoringResult :=
  let baseScore := baseScores (ac_type contribution) in
  let multiplier := calculateMultiplier contribution in
  let finalScore := Qfloor (inject_Z baseScore * multiplier) in
  {| sr_baseScore := baseScore; sr_multiplier := multiplier; sr_finalScore := finalScore;
     sr_explanation := generateExplanation contribution baseScore multiplier finalScore |}.

(** ** Tier helpers of src/lib/badge-minting.ts and the dashboard components *)

(** [getTierForScore(score)] with [TIER_CONFIG] *)
Definition getTierForScore (score : Z) : option string :=
  if (700 <=? score)%Z then Some "LEADER"
  else if (300 <=? score)%Z then Some "CONTRIBUTOR"
  else if (100 <=? score)%Z then Some "BUILDER"
  else None.

(** [getTier(score)] of the reputation dashboard (the on-chain score is
    an integer). *)
Definition getTier (score : Z) : string :=
  if (700 <=? score)%Z then "LEADER"
  else if (300 <=? score)%Z then "CONTRIBUTOR"
  else if (100 <=? score)%Z then "BUILDER"
  else "UNRANKED".

Definition tier_rank (t : string) : nat :=
  if String.eqb t "LEADER" then 3
  else if String.eqb t "CONTRIBUTOR" then 2
  else if String.eqb t "BUILDER" then 1 else 0.

(** [ScoreBreakdown]: [nextMilestone] ([null] = [None]) and [pointsNeeded]. *)
Definition nextMilestone (score : Z) : option Z :=
  if (score <? 100)%Z then Some 100%Z
  else if (score <? 300)%Z then Some 300%Z
  else if (score <? 700)%Z then Some 700%Z
  else None.

Definition pointsNeeded (score : Z) : Z :=
  match nextMilestone score with Some m => (m - score)%Z | None => 0%Z end.

(** ** src/lib/badge-minting.ts : badge image, token URI and [mintBadge] *)

Record TierStyle := { color : string; bgColor : string; description : string }.

Definition builder_style : TierStyle :=
  {| color := "#35D07F"; bgColor := "#0F172A"; description := "Early Contributor" |}.

(** [tierStyles[tier]]; [None] is [undefined].  The callers pass tier
    names only, so the keys [Object.prototype] inherits are not modelled. *)
Definition tierStyles (tier : string) : option TierStyle :=
  if String.eqb tier "BUILDER" then Some builder_style
  else if String.eqb tier "CONTRIBUTOR" then
    Some {| color := "#2DCCFF"; bgColor := "#0F172A"; description := "Active Contributor" |}
  else if String.eqb tier "LEADER" then
    Some {| color := "#FFB84D"; bgColor := "#0F172A"; description := "Community Leader" |}
  else None.

(** The template below is written with [']; [quoted] turns every [']
    into the double quote of the source (the template has no [']). *)
Definition quoted (s : string) : string :=
  string_of_list_ascii
    (List.map (fun c => if Ascii.eqb c "'" then ascii_of_nat 34 else c) (list_ascii_of_string s)).

(** [generateBadgeSVG(tier)]: [tierStyles[tier] || tierStyles.BUILDER],
    then the template.  [.trim()] removes the template's leading newline
    and its trailing newline and two spaces; the interpolated values sit
    between [<svg] and [</svg>], so trimming first is the same. *)
Definition generateBadgeSVG (tier : string) : string :=
  let style := match tierStyles tier with Some st => st | None => builder_style end in
  quoted "<svg width='300' height='300' viewBox='0 0 300 300' xmlns='http://www.w3.org/2000/svg'>
  <!-- Background -->
  <rect width='300' height='300' fill='" ++
  bgColor style ++
  quoted "'/>
  
  <!-- Border -->
  <rect width='300' height='300' fill='none' stroke='" ++
  color style ++
  quoted "' stroke-width='3' rx='20'/>
  
  <!-- Title -->
  <text x='150' y='100' font-size='28' font-weight='bold' fill='" ++
  color style ++
  quoted "' 
        text-anchor='middle' font-family='system-ui, sans-serif'>
    CELOCRED
  </text>
  
  <!-- Tier Name -->
  <text x='150' y='150' font-size='32' font-weight='bold' fill='" ++
  color style ++
  quoted "' 
        text-anchor='middle' font-family='system-ui, sans-serif'>
    " ++
  tier ++
  quoted "
  </text>
  
  <!-- Description -->
  <text x='150' y='200' font-size='14' fill='" ++
  color style ++
  quoted "' 
        text-anchor='middle' font-family='system-ui, sans-serif' opacity='0.8'>
    " ++
  description style ++
  quoted "
  </text>
  
  <!-- Celo branding -->
  <circle cx='150' cy='250' r='8' fill='" ++
  color style ++
  quoted "'/>
  <text x='150' y='268' font-size='12' fill='" ++
  color style ++
  quoted "' 
        text-anchor='middle' font-family='system-ui, sans-serif' opacity='0.6'>
    Verified on Celo
  </text>
</svg>".

(** [Buffer.toString("base64")]: RFC 4648 alphabet with [=] padding. *)
Definition b64_alphabet : list ascii :=
  list_ascii_of_string "ABCDEFGHIJKLMNOPQRSTUVWXYZabcdefghijklmnopqrstuvwxyz0123456789+/".

Definition b64_char (v : Z) : ascii := nth (Z.to_nat v) b64_alphabet "A"%char.

Fixpoint base64_encode (bs : list Z) : list ascii :=
  match bs with
  | b0 :: b1 :: b2 :: rest =>
      b64_char (b0 / 4) :: b64_char ((b0 mod 4) * 16 + b1 / 16) ::
      b64_char ((b1 mod 16) * 4 + b2 / 64) :: b64_char (b2 mod 64) :: base64_encode rest
  | [b0; b1] =>
      [b64_char (b0 / 4); b64_char ((b0 mod 4) * 16 + b1 / 16); b64_char ((b1 mod 16) * 4); "="%char]
  | [b0] => [b64_char (b0 / 4); b64_char ((b0 mod 4) * 16); "="%char; "="%char]
  | [] => []
  end%Z.

(** [encodeBadgeSVG(svg)] *)
Definition encodeBadgeSVG (svg : string) : string :=
  "data:image/svg+xml;base64," ++ string_of_list_ascii (base64_encode (buffer_from svg)).

(** RFC 4648 decoding, the inverse the data URI is read with. *)
Fixpoint index_of_char (c : ascii) (l : list ascii) (i : Z) : option Z :=
  match l with
  | [] => None
  | x :: r => if Ascii.eqb x c then Some i else index_of_char c r (i + 1)%Z
  end.

Definition b64_value (c : ascii) : option Z := index_of_char c b64_alphabet 0%Z.

Fixpoint base64_decode (cs : list ascii) : option (list Z) :=
  match cs with
  | [] => Some []
  | c0 :: c1 :: c2 :: c3 :: rest =>
      match b64_value c0, b64_value c1 with
      | Some v0, Some v1 =>
          let b0 := (v0 * 4 + v1 / 16)%Z in
          if Ascii.eqb c2 "=" then
            if Ascii.eqb c3 "=" && (match rest with [] => true | _ => false end)
            then Some [b0] else None
          else match b64_value c2 with
               | None => None
               | Some v2 =>
                   let b1 := ((v1 mod 16) * 16 + v2 / 4)%Z in
                   if Ascii.eqb c3 "=" then
                     (match rest with [] => Some [b0; b1] | _ => None end)
                   else match b64_value c3 with
                        | None => None
                        | Some v3 =>
                            let b2 := ((v2 mod 4) * 64 + v3)%Z in
                            option_map (fun r => b0 :: b1 :: b2 :: r) (base64_decode rest)
                        end
               end
      | _, _ => None
      end
  | _ => None
  end.

(** The [src] [ReputationBadge] derives from a token URI ([''] until set). *)
Definition reputation_badge_src (uri : string) : string :=
  if String.prefix "data:image" uri then uri
  else if String.prefix "http" uri then uri
  else if Nat.ltb 0 (String.length uri) then "data:image/svg+xml;base64," ++ uri
  else "".

Record MintResult := {
  mb_success : bool;
  mb_tier : option string;
  mb_txHash : option string;
  mb_error : option string
}.

(** A [badgeContract.mint(to, tokenId, uri)] call. *)
Record MintCall := { m_to : string; m_tokenId : Z; m_uri : string }.

Definition mint_error (m : string) : MintResult :=
  {| mb_success := false; mb_tier := None; mb_txHash := None; mb_error := Some m |}.

(** [mintBadge(userAddress, totalScore)]: [walletPresent] is
    [window.ethereum], [signerErr] a throw of [getSigner()], [tx] how the
    mint transaction ends.  Returns the result and the mint calls made. *)
Definition mintBadge (walletPresent : bool) (signerErr : option string) (tx : StepOutcome)
    (userAddress : string) (totalScore : Z) : MintResult * list MintCall :=
  if negb walletPresent then (mint_error "No wallet provider detected", [])
  else match getTierForScore totalScore with
  | None => (mint_error "Score too low for any badge", [])
  | Some tier =>
      match signerErr with
      | Some m => (mint_error m, [])
      | None =>
          let svg := generateBadgeSVG tier in
          let uri := encodeBadgeSVG svg in
          match generateBadgeTokenId_client userAddress tier with
          | None => (mint_error "Cannot convert 0x to a BigInt", [])
          | Some tokenId =>
              let call := {| m_to := userAddress; m_tokenId := tokenId; m_uri := uri |} in
              match tx with
              | Fails m => (mint_error m, [call])
              | Confirmed h =>
                  ({| mb_success := true; mb_tier := Some tier; mb_txHash := Some h;
                      mb_error := None |}, [call])
              end
          end
      end
  end.

(** ** src/lib/ai-verify.ts : [analyzeGitHubLink] and its helpers *)

Fixpoint take_while (p : ascii -> bool) (l : list ascii) : list ascii :=
  match l with [] => [] | c :: r => if p c then c :: take_while p r else [] end.

Fixpoint starts_with (pre l : list ascii) : bool :=
  match pre, l with
  | [], _ => true
  | c :: pre', d :: l' => Ascii.eqb c d && starts_with pre' l'
  | _ :: _, [] => false
  end.

(** [[a-zA-Z0-9-]] *)
Definition is_user_char (c : ascii) : bool := is_alnum c || Ascii.eqb c "-".

Definition github_prefix : list ascii := list_ascii_of_string "github.com/".

(** [githubUrl.match(/github\.com\/([a-zA-Z0-9-]+)/)] and its group 1: the
    leftmost [github.com/] followed by a name character, with the longest
    run of name characters after it ([None] = no match). *)
Fixpoint match_username (l : list ascii) : option (list ascii) :=
  match l with
  | [] => None
  | _ :: rest =>
      let u := take_while is_user_char (skipn 11 l) in
      if starts_with github_prefix l && negb (Nat.eqb (List.length u) 0) then Some u
      else match_username rest
  end.

(** Line terminators [.] does not match (U+2028/U+2029 lie outside the
    modelled code points). *)
Definition is_line_terminator (c : ascii) : bool := Ascii.eqb c "010" || Ascii.eqb c "013".

Definition rel_last : list ascii := list_ascii_of_string (quoted "rel='last'").

(** [.*rel="last"] from here. *)
Fixpoint rel_last_ahead (l : list ascii) : bool :=
  match l with
  | [] => false
  | c :: rest => starts_with rel_last l || (negb (is_line_terminator c) && rel_last_ahead rest)
  end.

(** [/page=(\d+)>.*rel="last"/] tried at the start of [l].  [\d+] can only
    end before [>] at the end of the longest digit run (a shorter run is
    followed by a digit), so backtracking finds nothing else. *)
Definition match_page_at (l : list ascii) : option (list ascii) :=
  if starts_with (list_ascii_of_string "page=") l then
    let ds := take_while is_digit (skipn 5 l) in
    match ds, skipn (5 + List.length ds) l with
    | _ :: _, c :: rest => if Ascii.eqb c ">" && rel_last_ahead rest then Some ds else None
    | _, _ => None
    end
  else None.

(** [linkHeader.match(/page=(\d+)>.*rel="last"/)?.[1]]: the leftmost match. *)
Fixpoint link_last_page (l : list ascii) : option (list ascii) :=
  match l with
  | [] => None
  | _ :: rest => match match_page_at l with Some ds => Some ds | None => link_last_page rest end
  end.

(** [parseInt(ds, 10)] on a run of decimal digits (exact). *)
Definition parseInt10 (ds : list ascii) : Z :=
  fold_left (fun acc c => acc * 10 + (char_code c - 48))%Z ds 0%Z.

(** The commits request of [getCeloRepoContributionCount]: it throws, is
    not ok, or answers with a [Link] header (if any) and a body that is a
    JSON array of some length ([None]: not an array, or not JSON). *)
Inductive CountResponse :=
  | CountThrows
  | CountNotOk
  | CountOk (link : option string) (body : option nat).

(** [getCeloRepoContributionCount(username, owner, repoName)] *)
Definition getCeloRepoContributionCount (resp : CountResponse) : Z :=
  match resp with
  | CountThrows | CountNotOk => 0%Z
  | CountOk link body =>
      let linkHeader := match link with Some h => h | None => "" end in
      match link_last_page (list_ascii_of_string linkHeader) with
      | Some ds => parseInt10 ds
      | None => match body with Some n => if Nat.ltb 0 n then 1%Z else 0%Z | None => 0%Z end
      end
  end.

(** [checkFileContent(owner, repoName, fileName)]: [None] when the request
    throws, is not ok, or loses the 2 s race. *)
Definition checkFileContent (resp : option string) : bool :=
  match resp with
  | None => false
  | Some content =>
      includes (js_toLowerCase content) "celo" || includes (js_toLowerCase content) "@celo/" ||
      includes (js_toLowerCase content) "contractkit"
  end.

Definition filesToCheck : list string := ["package.json"; "README.md"].

(** [checkRepoContentForCelo(owner, repoName)] *)
Definition checkRepoContentForCelo (fileResp : string -> option string) : bool :=
  existsb (fun fileName => checkFileContent (fileResp fileName)) filesToCheck.

(** A repository object of the GitHub [repos] answer, with the fields the
    code reads ([None] = null or absent). *)
Record Repo := {
  r_name : string;
  r_html_url : string;
  r_language : option string;
  r_stargazers_count : option Q;
  r_description : option string;
  r_owner_login : string;
  r_size : option Q;
  r_fork : bool;
  r_topics : option (list string)
}.

(** [x || ''] on a string or null. *)
Definition or_empty (o : option string) : string :=
  match o with Some s => s | None => "" end.

(** [x || d] on a string or null: [''] is falsy. *)
Definition str_or (o : option string) (d : string) : string :=
  match o with Some s => if String.eqb s "" then d else s | None => d end.

(** [x || 0] on a number or null. *)
Definition num_or_zero (o : option Q) : Q :=
  match o with Some q => q | None => 0 end.

Definition CELO_KEYWORDS : list string :=
  ["celo"; "celotoolkit"; "celojs"; "celo-sdk"; "celo-protocol"; "contractkit";
   "celo-connect"; "celo-compose"; "celo-name"; "farcaster.celo"; "@celo/";
   "celo-cli"; "celocore"; "celo-monorepo"; "celo-wallet"; "celo-dapp";
   "valora"; "minipay"; "mento"; "celo-blockchain"; "celo-governance";
   "celogov"; "celo-reserve"; "celo-cryptography"; "celo-infra"].

Definition CELO_ORGS : list string :=
  ["celo"; "celo-org"; "celolabs"; "celotools"; "celo-protocols"; "celo-ecosystem"; "valora-ce"].

Definition content_languages : list string :=
  ["typescript"; "javascript"; "rust"; "go"; "solidity"; "python"].

(** The entry pushed for a repository ([url] is not among the modelled
    fields of [CeloContribution]). *)
Definition celo_entry (countResp : string -> string -> CountResponse) (repo : Repo)
    (isCelo : bool) : CeloContribution :=
  {| repoName := r_name repo;
     isCeloRepo := isCelo;
     contributionCount :=
       inject_Z (getCeloRepoContributionCount (countResp (r_owner_login repo) (r_name repo)));
     isFork := r_fork repo;
     stars := num_or_zero (r_stargazers_count repo);
     language := str_or (r_language repo) "Unknown" |}.

(** One iteration of the loop of [detectCeloContributions]; [countResp]
    answers the commits request of [username] for (owner, name), [fileResp]
    the raw-file request for (owner, name, file).  Neither helper throws. *)
Definition detect_one (countResp : string -> string -> CountResponse)
    (fileResp : string -> string -> string -> option string) (repo : Repo)
    : list CeloContribution :=
  let repoName := js_toLowerCase (r_name repo) in
  let repoDesc := js_toLowerCase (or_empty (r_description repo)) in
  let repoOwner := js_toLowerCase (r_owner_login repo) in
  let topics := List.map js_toLowerCase
                  (match r_topics repo with Some ts => ts | None => [] end) in
  let isCeloOrg := existsb (fun org => includes repoOwner org) CELO_ORGS in
  let hasCeloKeyword :=
    existsb (fun keyword =>
      includes repoName (js_toLowerCase keyword) ||
      includes repoDesc (js_toLowerCase keyword) ||
      existsb (fun t => includes t (js_toLowerCase keyword)) topics) CELO_KEYWORDS in
  if isCeloOrg || hasCeloKeyword then [celo_entry countResp repo isCeloOrg]
  else
    let language := js_toLowerCase (or_empty (r_language repo)) in
    if existsb (fun lang => includes language lang) content_languages then
      if checkRepoContentForCelo (fileResp (r_owner_login repo) (r_name repo))
      then [celo_entry countResp repo false]
      else []
    else [].

(** [detectCeloContributions(username, repos)] *)
Definition detectCeloContributions (countResp : string -> string -> CountResponse)
    (fileResp : string -> string -> string -> option string) (repos : list Repo)
    : list CeloContribution :=
  flat_map (detect_one countResp fileResp) repos.

(** [arr.indexOf(x)], [None] for [-1]. *)
Fixpoint js_indexOf (x : string) (arr : list string) : option nat :=
  match arr with
  | [] => None
  | y :: r => if String.eqb x y then Some 0%nat else option_map S (js_indexOf x r)
  end.

(** [.filter((lang, idx, arr) => arr.indexOf(lang) === idx)] *)
Definition first_occurrences (arr : list string) : list string :=
  List.map fst
    (List.filter (fun p => match js_indexOf (fst p) arr with
                           | Some i => Nat.eqb i (snd p) | None => false end)
                 (combine arr (seq 0 (List.length arr)))).

(** [repos.filter(r => r.language).map(r => r.language)
      .filter(first occurrence).slice(0, 5)] *)
Definition repo_languages (repos : list Repo) : list string :=
  firstn 5 (first_occurrences
    (flat_map (fun r => match r_language r with
                        | Some l => if String.eqb l "" then [] else [l]
                        | None => [] end) repos)).

(** The specialties of [analyzeGitHubLink], with its default. *)
Definition specialties_of (languages : list string) : list string :=
  let has l := existsb (String.eqb l) languages in
  let sp := app (if has "Solidity" then ["Smart Contracts"] else [])
           (app (if has "Rust" then ["Systems Programming"] else [])
           (app (if has "Python" then ["Data Science"] else [])
           (app (if has "Go" then ["Backend"] else [])
           (app (if has "TypeScript" || has "JavaScript" then ["Web Development"] else [])
                (if has "Kotlin" then ["Mobile Development"] else []))))) in
  match sp with [] => ["General Development"] | _ => sp end.

Record GitHubUserData := {
  gu_login : string;
  gu_public_repos : Q;
  gu_followers : Q;
  gu_bio : option string
}.

Record RepoContribution := {
  rc_name : string;
  rc_language : string;
  rc_stars : Q;
  rc_description : string;
  rc_isOwned : bool;
  rc_url : string
}.

(** The fields of the analysis beyond those of [ContributionAnalysis]. *)
Record AnalysisExtras := {
  totalRepos : Q;
  topRepos : list RepoContribution;
  totalCommits : Z;
  averageRepoSize : Z;
  detectedWallet : option string;
  walletFormatValid : bool;
  bioContainsWallet : bool
}.

(** [analyzeGitHubLink(githubUrl)]: [userResp] is the user request ([None]
    = not ok), [reposJson] the parsed repos answer ([None] = not an array,
    on which [repos.slice] throws and the catch returns null). *)
Definition analyzeGitHubLink (githubUrl : string) (userResp : option GitHubUserData)
    (reposJson : option (list Repo)) (countResp : string -> string -> CountResponse)
    (fileResp : string -> string -> string -> option string)
    : option (ContributionAnalysis * AnalysisExtras) :=
  match match_username (list_ascii_of_string githubUrl) with
  | None => None
  | Some u =>
    let username := string_of_list_ascii u in
    match userResp with
    | None => None
    | Some userData =>
      let bioWallet := extractWalletFromText (gu_bio userData) in
      let normalizedBioWallet :=
        match bioWallet with Some w => normalizeAddress w | None => None end in
      match reposJson with
      | None => None
      | Some repos =>
        let topRepos := List.map (fun repo =>
              {| rc_name := r_name repo;
                 rc_language := str_or (r_language repo) "Unknown";
                 rc_stars := num_or_zero (r_stargazers_count repo);
                 rc_description := str_or (r_description repo) "No description";
                 rc_isOwned := String.eqb (r_owner_login repo) username;
                 rc_url := r_html_url repo |}) (firstn 5 repos) in
        let languages := repo_languages repos in
        let totalCommits :=
          fold_left (fun sum repo => sum + num_or_zero (r_stargazers_count repo) * (1#2)) repos 0 in
        let averageRepoSize :=
          match repos with
          | [] => 0
          | _ => fold_left (fun sum repo => sum + num_or_zero (r_size repo)) repos 0
                   / inject_Z (Z.of_nat (List.length repos))
          end in
        let celo := detectCeloContributions countResp fileResp repos in
        Some ({| username := username;
                 followers := gu_followers userData;
                 languages := languages;
                 specialties := specialties_of languages;
                 celoContributions := celo;
                 hasCeloContribution := Nat.ltb 0 (List.length celo);
                 celoContributionCount := fold_left (fun sum c => sum + contributionCount c) celo 0 |},
              {| totalRepos := gu_public_repos userData;
                 topRepos := topRepos;
                 totalCommits := js_round totalCommits;
                 averageRepoSize := js_round averageRepoSize;
                 detectedWallet := normalizedBioWallet;
                 walletFormatValid := match normalizedBioWallet with Some _ => true | None => false end;
                 bioContainsWallet := match bioWallet with Some _ => true | None => false end |})
      end
    end
  end.

(** A byte value. *)
Definition is_byte (b : Z) : Prop := (0 <= b < 256)%Z.

(** [page=] of the [Link] pattern. *)
Definition page_eq : list ascii := list_ascii_of_string "page=".

(** Example inputs of the GitHub analysis. *)
Definition ex_repo : Repo :=
  {| r_name := "celo-composer"; r_html_url := "https://github.com/celo-org/celo-composer";
     r_language := Some "TypeScript"; r_stargazers_count := Some 12; r_description := None;
     r_owner_login := "celo-org"; r_size := Some 300; r_fork := true; r_topics := None |}.

Definition ex_link_base : list ascii :=
  list_ascii_of_string "https://api.github.com/repositories/1/commits?author=alice&per_page=1&".

Definition ex_link_tail : list ascii :=
  list_ascii_of_string (quoted "; rel='next', <https://api.github.com/repositories/1/commits?author=alice&per_page=1&page=34>; rel='last'").

(** ** Reading the table back: src/lib/supabase.ts [getUserContributions],
    src/components/my-submissions.tsx and the main page's [fetchScore] *)

(** [getUserContributions(userAddress)]: the rows of the address ordered by
    [created_at] descending (the table lists rows in creation order, so
    this is the reverse); [readOk] is whether the select succeeds, [None]
    is [success: false]. *)
Definition getUserContributions (tbl : list StoredContribution) (readOk : bool)
    (userAddress : string) : option (list StoredContribution) :=
  if String.eqb userAddress "" then None
  else if readOk then
    Some (rev (filter (fun c => String.eqb (sc_user_address c) (js_toLowerCase userAddress)) tbl))
  else None.

(** [MySubmissions]: [total], the sum of [c.score || 0] over the loaded
    rows; [0] when the load fails. *)
Definition mySubmissions_total (res : option (list StoredContribution)) : Z :=
  match res with
  | Some rows => fold_left (fun sum c => sum + sc_score c)%Z rows 0%Z
  | None => 0%Z
  end.

(** The main page's [fetchScore]: the sum of the scores of the verified
    rows; ['0'] when nothing was loaded. *)
Definition fetchScore (res : option (list StoredContribution)) : Z :=
  match res with
  | Some rows =>
      if Nat.ltb 0 (List.length rows)
      then fold_left (fun sum c => if String.eqb (sc_status c) "verified"
                                   then (sum + sc_score c)%Z else sum) rows 0%Z
      else 0%Z
  | None => 0%Z
  end.

(** What every stored row looks like: a positive score, a lowercase
    address, and either pending with no transaction or verified with one. *)
Definition row_ok (c : StoredContribution) : Prop :=
  (0 < sc_score c)%Z /\ js_toLowerCase (sc_user_address c) = sc_user_address c /\
  ((sc_status c = "pending" /\ sc_on_chain_tx c = None) \/
   (sc_status c = "verified" /\ exists tx, sc_on_chain_tx c = Some tx)).

(** The table after the submissions [0 .. k-1]: rows as above, ids below
    [k] and pairwise distinct. *)
Definition table_ok (k : nat) (tbl : list StoredContribution) : Prop :=
  Forall row_ok tbl /\ Forall (fun c => (sc_id c < k)%nat) tbl /\ NoDup (List.map sc_id tbl).

(** The rows [updateContributionWithTx] looks for: the normalized address,
    that score, still ['pending']. *)
Definition pending_match (u : string) (sc : Z) (c : StoredContribution) : bool :=
  String.eqb (sc_user_address c) (js_toLowerCase u) && Z.eqb (sc_score c) sc
  && String.eqb (sc_status c) "pending".

(** [SubmitContribution]'s [updateLocalContributionStatus(score, txHash)]:
    every loaded row with that score that is still ['pending'] is shown as
    ['verified']; [txHash] is not used. *)
Definition updateLocalContributionStatus (prev : list StoredContribution) (score : Z) (txHash : string)
    : list StoredContribution :=
  List.map (fun contrib =>
    if Z.eqb (sc_score contrib) score && String.eqb (sc_status contrib) "pending"
    then {| sc_id := sc_id contrib; sc_user_address := sc_user_address contrib;
            sc_contribution_type := sc_contribution_type contrib; sc_score := sc_score contrib;
            sc_github_link := sc_github_link contrib; sc_status := "verified";
            sc_on_chain_tx := sc_on_chain_tx contrib |}
    else contrib) prev.

(** A table with two pending rows of one address and one score. *)
Definition ex_row_a : StoredContribution :=
  {| sc_id := 0; sc_user_address := "0xabc"; sc_contribution_type := "COMMIT"; sc_score := 50;
     sc_github_link := "https://github.com/a/b/commit/1"; sc_status := "pending"; sc_on_chain_tx := None |}.

Definition ex_row_b : StoredContribution :=
  {| sc_id := 1; sc_user_address := "0xdef"; sc_contribution_type := "PR"; sc_score := 50;
     sc_github_link := "https://github.com/a/b/pull/2"; sc_status := "pending"; sc_on_chain_tx := None |}.

Definition ex_row_c : StoredContribution :=
  {| sc_id := 2; sc_user_address := "0xabc"; sc_contribution_type := "COMMIT"; sc_score := 50;
     sc_github_link := "https://github.com/a/b/commit/3"; sc_status := "pending"; sc_on_chain_tx := None |}.

Definition ex_rows : list StoredContribution := [ex_row_a; ex_row_b; ex_row_c].

(** * Properties *)

(** ** Number helpers *)

Lemma js_min_mono_l (x y c : Q) : x <= y -> js_min x c <= js_min y c.
Proof.
  unfold js_min; intros H.
  destruct (Qlt_le_dec c x), (Qlt_le_dec c y); lra.
Qed.

Lemma js_min_le_r (x c : Q) : js_min x c <= c.
Proof. unfold js_min; destruct (Qlt_le_dec c x); lra. Qed.

Lemma js_min_ge (x c m : Q) : m <= x -> m <= c -> m <= js_min x c.
Proof. unfold js_min; destruct (Qlt_le_dec c x); lra. Qed.

Lemma js_round_mono (x y : Q) : x <= y -> (js_round x <= js_round y)%Z.
Proof. intros H; unfold js_round; apply Qfloor_resp_le; lra. Qed.

Lemma js_round_Z (n : Z) : js_round (inject_Z n) = n.
Proof.
  unfold js_round.
  pose proof (Qfloor_le (inject_Z n + (1#2))) as Hle.
  pose proof (Qlt_floor (inject_Z n + (1#2))) as Hlt.
  set (f := Qfloor (inject_Z n + (1#2))) in *.
  rewrite inject_Z_plus in Hlt.
  assert (H1 : (f <= n)%Z).
  { destruct (Z_le_gt_dec f n) as [|Hg]; [assumption|].
    assert (Hg' : (n + 1 <= f)%Z) by lia.
    rewrite Zle_Qle, inject_Z_plus in Hg'.
    change (inject_Z 1) with 1 in Hg', Hlt. lra. }
  assert (H2 : (n <= f)%Z).
  { destruct (Z_le_gt_dec n f) as [|Hg]; [assumption|].
    assert (Hg' : (f + 1 <= n)%Z) by lia.
    rewrite Zle_Qle, inject_Z_plus in Hg'.
    change (inject_Z 1) with 1 in Hg', Hlt. lra. }
  lia.
Qed.

Lemma js_round_le_Z (x : Q) (n : Z) : x <= inject_Z n -> (js_round x <= n)%Z.
Proof. intros H. rewrite <- (js_round_Z n). now apply js_round_mono. Qed.

Lemma js_round_nonneg (x : Q) : 0 <= x -> (0 <= js_round x)%Z.
Proof.
  intros H. change 0%Z with (js_round (inject_Z 0)) at 1.
  apply js_round_mono. change (inject_Z 0) with 0. exact H.
Qed.

Ltac qnum := vm_compute; first [reflexivity | intros; discriminate | lra].

(** ** The verifier *)

(** The opinion the specification demands for zero ecosystem activity. *)
Definition zero_activity_opinion (o : AIVerificationResult * bool) : Prop :=
  let r := fst o in
  recommendation r = "reject" /\ impactScore r == 0 /\ qualityScore r == 0 /\
  authenticity r == 0 /\ finalScore r == 0 /\ authentic r = true /\ snd o = false.

(** One ecosystem repository was found but the commit count came back 0
    (as [getCeloRepoContributionCount] returns on a non-2xx reply). *)
Definition ex_zero_commits : ContributionAnalysis := {|
  username := "dev";
  followers := 100;
  languages := ["TypeScript"; "Solidity"; "Go"];
  specialties := ["Smart Contracts"; "Backend"; "Web Development"];
  celoContributions := [ {| repoName := "celo-dapp"; isCeloRepo := false;
                            contributionCount := 0; isFork := false;
                            stars := 100; language := "TypeScript" |} ];
  hasCeloContribution := true;
  celoContributionCount := 0
|}.

Lemma ex_zero_commits_wf : analysis_wf ex_zero_commits.
Proof.
  repeat split; try qnum.
  repeat constructor; qnum.
Qed.

(** C1 (as stated, refuted): an analysis whose ecosystem commit total is 0
    need not be rejected: with one ecosystem repository of 0 commits and no
    API key the fallback accepts it with final score 90. *)
Lemma C1_counterexample :
  ~ (forall k reply a, analysis_wf a -> celoContributionCount a == 0 ->
       zero_activity_opinion (verifyWithAI k reply a)).
Proof.
  intros H.
  specialize (H None ReplyNotOk ex_zero_commits ex_zero_commits_wf ltac:(qnum)).
  destruct H as [Hrec _]. vm_compute in Hrec. discriminate.
Qed.

(** C1 (amended): whenever no ecosystem repository was detected
    ([hasCeloContribution] is false), the verifier returns
    [{authentic: true, all scores 0, recommendation: reject}] and does not
    call the oracle, whatever the key and the oracle's reply. *)
Theorem verifyWithAI_no_ecosystem (k : option string) (reply : OracleReply)
    (a : ContributionAnalysis) :
  hasCeloContribution a = false ->
  verifyWithAI k reply a = (noCeloResult, false) /\
  zero_activity_opinion (verifyWithAI k reply a).
Proof.
  intros H.
  assert (E : verifyWithAI k reply a = (noCeloResult, false)).
  { unfold verifyWithAI, generateDefaultVerification; rewrite H; simpl.
    destruct k as [s|]; [destruct s as [|c s]|]; reflexivity. }
  split; [exact E|]. rewrite E. repeat split; reflexivity.
Qed.

Definition ex_no_ecosystem : ContributionAnalysis := {|
  username := "webdev";
  followers := 250;
  languages := ["TypeScript"; "Rust"];
  specialties := ["Systems Programming"; "Web Development"];
  celoContributions := [];
  hasCeloContribution := false;
  celoContributionCount := 0
|}.

Lemma verifyWithAI_no_ecosystem_witness :
  hasCeloContribution ex_no_ecosystem = false /\
  verifyWithAI (Some "key") ReplyNotOk ex_no_ecosystem = (noCeloResult, false).
Proof.
  split; [reflexivity|].
  exact (proj1 (verifyWithAI_no_ecosystem (Some "key") ReplyNotOk ex_no_ecosystem eq_refl)).
Defined.

(** ** The score calculator *)

Lemma mult_factor_mono (x x' : Q) (d : positive) :
  0 <= x <= x' -> 1 <= 1 + x / inject_Z (Zpos d) <= 1 + x' / inject_Z (Zpos d).
Proof.
  intros [H0 H1].
  assert (Hd : 0 < inject_Z (Zpos d)) by (unfold Qlt; simpl; lia).
  assert (0 <= x / inject_Z (Zpos d)) by (apply Qle_shift_div_l; lra).
  assert (x / inject_Z (Zpos d) <= x' / inject_Z (Zpos d)).
  { unfold Qdiv. apply Qmult_le_compat_r; [assumption|].
    apply Qlt_le_weak, Qinv_lt_0_compat; assumption. }
  lra.
Qed.

(** The uncapped product [baseScore * impMult * qulMult * auMult] is at
    least [baseScore] and grows with each sub-score. *)
Lemma product_mono (b i q a i' q' a' : Q) :
  0 <= b -> 0 <= i <= i' -> 0 <= q <= q' -> 0 <= a <= a' ->
  0 <= b * (1 + i / 150) * (1 + q / 160) * (1 + a / 200) /\
  b * (1 + i / 150) * (1 + q / 160) * (1 + a / 200) <=
  b * (1 + i' / 150) * (1 + q' / 160) * (1 + a' / 200).
Proof.
  intros Hb Hi Hq Ha.
  pose proof (mult_factor_mono i i' 150 Hi) as Fi.
  pose proof (mult_factor_mono q q' 160 Hq) as Fq.
  pose proof (mult_factor_mono a a' 200 Ha) as Fa.
  change (inject_Z 150) with (150 : Q) in Fi.
  change (inject_Z 160) with (160 : Q) in Fq.
  change (inject_Z 200) with (200 : Q) in Fa.
  assert (P1 : 0 <= b * (1 + i / 150) <= b * (1 + i' / 150)).
  { split; [apply Qmult_le_0_compat; lra|].
    rewrite !(Qmult_comm b). apply Qmult_le_compat_r; lra. }
  assert (P2 : 0 <= b * (1 + i / 150) * (1 + q / 160)
               <= b * (1 + i' / 150) * (1 + q' / 160)).
  { split; [apply Qmult_le_0_compat; lra|].
    apply Qmult_le_compat_nonneg; lra. }
  split.
  - apply Qmult_le_0_compat; lra.
  - apply Qmult_le_compat_nonneg; lra.
Qed.

(** C2: for every contribution type, every opinion whose three sub-scores
    are non-negative and either wallet flag, the calculated score is an
    integer in [[0, baseScore(type) * 3]], and raising any of impactScore,
    qualityScore, authenticity (the other fields fixed) never lowers it. *)
Theorem calculateFinalScore_bounded_monotone (t : ContributionType)
    (r : AIVerificationResult) (w : bool) (i q a i' q' a' : Q) :
  0 <= i <= i' -> 0 <= q <= q' -> 0 <= a <= a' ->
  let base := inject_Z (BASE_SCORES t) in
  (0 <= calculateFinalScore (with_scores r i q a) base w <= 3 * BASE_SCORES t)%Z /\
  (calculateFinalScore (with_scores r i q a) base w
     <= calculateFinalScore (with_scores r i' q' a') base w)%Z.
Proof.
  intros Hi Hq Ha base.
  assert (HB : (0 <= BASE_SCORES t)%Z) by (destruct t; simpl; lia).
  assert (Hb : 0 <= base) by (subst base; destruct t; qnum).
  assert (H3 : base * 3 == inject_Z (3 * BASE_SCORES t)).
  { subst base. rewrite inject_Z_mult. change (inject_Z 3) with (3 : Q). ring. }
  unfold calculateFinalScore, with_scores; cbn [finalScore recommendation authentic
    impactScore qualityScore authenticity].
  destruct (js_eqn (finalScore r) 0 || String.eqb (recommendation r) "reject"); [lia|].
  destruct (negb (authentic r)).
  - assert (0 <= js_round (base * (1#4)))%Z by (apply js_round_nonneg, Qmult_le_0_compat; [exact Hb | qnum]).
    assert (js_round (base * (1#4)) <= 3 * BASE_SCORES t)%Z
      by (apply js_round_le_Z; rewrite <- H3; apply Qmult_le_l; [|qnum]; destruct t; qnum).
    lia.
  - destruct (product_mono base i q a i' q' a' Hb Hi Hq Ha) as [P0 P1].
    assert (Hs : forall s s', 0 <= s -> s <= s' ->
      (0 <= js_round (js_min s (base * 3)) <= 3 * BASE_SCORES t)%Z /\
      (js_round (js_min s (base * 3)) <= js_round (js_min s' (base * 3)))%Z).
    { intros s s' Hs0 Hs1. split; [split|].
      - apply js_round_nonneg, js_min_ge; lra.
      - apply js_round_le_Z. rewrite <- H3. apply js_min_le_r.
      - apply js_round_mono, js_min_mono_l; assumption. }
    destruct w; apply Hs.
    + apply Qmult_le_0_compat; lra.
    + apply Qmult_le_compat_r; lra.
    + assumption.
    + assumption.
Qed.

Lemma calculateFinalScore_bounded_monotone_witness :
  (0 <= 10 <= 40)%Q /\ (0 <= 20 <= 20)%Q /\ (0 <= 90 <= 95)%Q /\
  (0 <= calculateFinalScore (with_scores (ex_opinion) 10 20 90) (inject_Z (BASE_SCORES PR_MERGED)) true
     <= 3 * BASE_SCORES PR_MERGED)%Z.
Proof.
  split; [split; qnum|]. split; [split; qnum|]. split; [split; qnum|].
  exact (proj1 (calculateFinalScore_bounded_monotone PR_MERGED ex_opinion true 10 20 90 40 20 95
                  ltac:(split; qnum) ltac:(split; qnum) ltac:(split; qnum))).
Defined.

(** ** The deterministic fallback *)

(** The five fields the fallback formula fixes. *)
Definition same_scores (r s : AIVerificationResult) : Prop :=
  impactScore r == impactScore s /\ qualityScore r == qualityScore s /\
  authenticity r == authenticity s /\ finalScore r == finalScore s /\
  recommendation r = recommendation s.

(** One follower, one ecosystem repository with one commit and no stars. *)
Definition ex_one_commit : ContributionAnalysis := {|
  username := "newcomer";
  followers := 1;
  languages := [];
  specialties := ["General Development"];
  celoContributions := [ {| repoName := "celo-compose-demo"; isCeloRepo := false;
                            contributionCount := 1; isFork := true;
                            stars := 0; language := "Unknown" |} ];
  hasCeloContribution := true;
  celoContributionCount := 1
|}.

Lemma ex_one_commit_wf : analysis_wf ex_one_commit.
Proof. repeat split; try qnum. repeat constructor; qnum. Qed.

(** C8 (as stated, refuted): with the oracle unavailable the opinion is not
    the unrounded formula: for one follower and one commit the formula's
    impact is 1.5 + 5 * 0.4 = 3.5 while the verifier reports 4. *)
Lemma C8_counterexample :
  ~ (forall k reply a, analysis_wf a -> oracle_unavailable k reply ->
       same_scores (fst (verifyWithAI k reply a)) (spec_fallback a)).
Proof.
  intros H.
  specialize (H None ReplyThrows ex_one_commit ex_one_commit_wf I).
  destruct H as [Himp _]. vm_compute in Himp. discriminate.
Qed.

(** C8 (amended): with no API key, a transport failure, a non-2xx reply, a
    reply without text, without a JSON block or with unparsable JSON, the
    opinion is exactly [amended_fallback]: the all-zero reject opinion when
    no ecosystem repository was detected; otherwise
    [impact = min(100, followers*1.5 + min(100, commits*5)*0.4)],
    [quality = min(100, mean of min(stars,100) + languages*8)],
    [authenticity = 90 if commits > 0 else 75],
    [final = 0.3*impact + 0.3*quality + 0.4*authenticity], reported rounded
    to integers, [authentic = commits > 0], and the recommendation taken from
    the unrounded final (accept > 70, review > 50, else reject). *)
Theorem verifyWithAI_fallback (k : option string) (reply : OracleReply)
    (a : ContributionAnalysis) :
  analysis_wf a -> oracle_unavailable k reply ->
  fst (verifyWithAI k reply a) = amended_fallback a.
Proof.
  intros (_ & _ & Hf & _) Hu.
  assert (G : generateDefaultVerification a = amended_fallback a).
  { unfold generateDefaultVerification, amended_fallback.
    destruct (hasCeloContribution a); [|reflexivity]. simpl negb. cbv iota.
    assert (Hq : Qle_bool 0 (followers a) = true) by (apply Qle_bool_iff; exact Hf).
    rewrite Hq. rewrite !andb_true_r. reflexivity. }
  unfold verifyWithAI.
  destruct k as [[|c s]|]; simpl fst; try exact G;
    (destruct (hasCeloContribution a) eqn:Hc; simpl negb; cbv iota;
     [destruct reply; simpl in Hu; try contradiction; exact G
     |unfold amended_fallback; rewrite Hc; reflexivity]).
Qed.

Lemma verifyWithAI_fallback_witness :
  analysis_wf ex_one_commit /\ oracle_unavailable (Some "key") ReplyNotOk /\
  fst (verifyWithAI (Some "key") ReplyNotOk ex_one_commit) = amended_fallback ex_one_commit.
Proof.
  split; [exact ex_one_commit_wf|]. split; [exact I|].
  exact (verifyWithAI_fallback (Some "key") ReplyNotOk ex_one_commit ex_one_commit_wf I).
Defined.

(** ** The on-chain orchestrator *)

Definition mint_attempted (calls : list LedgerCall) : bool :=
  existsb (fun c => match c with CallMint _ => true | _ => false end) calls.

(** C3 (code defect): for old total 120 and new total 150 with every
    transaction confirmed, [executeOnchain] still calls [mint] with tier
    BUILDER and reports a badge transaction; the old total is never read. *)
Theorem executeOnchain_mints_without_crossing :
  let '(r, calls) := executeOnchain (Confirmed "0xreg") (Confirmed "0xinc") (Confirmed "0xbadge")
                                    30 120 150 in
  calls = [CallRegister 30; CallIncrease 30; CallMint "BUILDER"] /\
  mint_attempted calls = true /\ badgeTx r = Some "0xbadge".
Proof. vm_compute. repeat split. Qed.

(** The old cumulative score plays no part in what the orchestrator does. *)
Lemma executeOnchain_ignores_current_total (reg inc mint : StepOutcome) (d c1 c2 n : Z) :
  executeOnchain reg inc mint d c1 n = executeOnchain reg inc mint d c2 n.
Proof. reflexivity. Qed.

(** The orchestrator's result on an execution where the score-increase step
    fails after registration, as the specification words it. *)
Definition names_step_ScoreUpdating (o : ExecutionResult * list LedgerCall) : Prop :=
  let r := fst o in
  success r = false /\ registryTx r <> None /\ scoreTx r = None /\ badgeTx r = None /\
  exists m, error r = Some m /\ includes m "ScoreUpdating" = true.

(** C4 (as stated, refuted): the reported failure is the thrown error's own
    message; for a revert it does not name the step [ScoreUpdating]. *)
Lemma C4_counterexample :
  ~ (forall h m mint d c n, h <> "" ->
       names_step_ScoreUpdating (executeOnchain (Confirmed h) (Fails m) mint d c n)).
Proof.
  intros H.
  destruct (H "0xreg" "execution reverted" (Confirmed "0xbadge") 30%Z 90%Z 120%Z ltac:(discriminate))
    as (_ & _ & _ & _ & m & Hm & Hinc).
  vm_compute in Hm. injection Hm as <-. vm_compute in Hinc. discriminate.
Qed.

(** C4 (amended): a failing step stops the sequence at that step; no later
    call is made and nothing is undone.  The result has [success = false],
    keeps the hashes of the steps already confirmed, leaves the later ones
    absent, and carries the thrown error's message [m] (no step name). *)
Theorem executeOnchain_halts_at_failure (h1 h2 m : string) (mint : StepOutcome) (d c n : Z) :
  h1 <> "" -> h2 <> "" ->
  executeOnchain (Fails m) (Confirmed h2) mint d c n =
    ({| success := false; registryTx := None; scoreTx := None; badgeTx := None;
        error := Some m |}, [CallRegister d]) /\
  executeOnchain (Confirmed h1) (Fails m) mint d c n =
    ({| success := false; registryTx := Some h1; scoreTx := None; badgeTx := None;
        error := Some m |}, [CallRegister d; CallIncrease d]) /\
  (forall t, checkTierQualification n = Some t ->
   executeOnchain (Confirmed h1) (Confirmed h2) (Fails m) d c n =
    ({| success := false; registryTx := Some h1; scoreTx := Some h2; badgeTx := None;
        error := Some m |}, [CallRegister d; CallIncrease d; CallMint t])).
Proof.
  intros H1 H2.
  assert (R1 : receipt_hash h1 = Some h1)
    by (unfold receipt_hash; apply String.eqb_neq in H1; rewrite H1; reflexivity).
  assert (R2 : receipt_hash h2 = Some h2)
    by (unfold receipt_hash; apply String.eqb_neq in H2; rewrite H2; reflexivity).
  split; [reflexivity|]. split.
  - simpl. rewrite R1. reflexivity.
  - intros t Ht. simpl. rewrite Ht, R1, R2. reflexivity.
Qed.

Lemma executeOnchain_halts_at_failure_witness :
  executeOnchain (Confirmed "0xreg") (Fails "execution reverted") (Confirmed "0xbadge") 30 90 120 =
    ({| success := false; registryTx := Some "0xreg"; scoreTx := None; badgeTx := None;
        error := Some "execution reverted" |}, [CallRegister 30; CallIncrease 30]).
Proof.
  exact (proj1 (proj2 (executeOnchain_halts_at_failure "0xreg" "0xinc" "execution reverted"
                         (Confirmed "0xbadge") 30 90 120 ltac:(discriminate) ltac:(discriminate)))).
Defined.

(** ** Badge token identifiers *)

Lemma list_ascii_of_string_append (s t : string) :
  list_ascii_of_string (s ++ t) = (list_ascii_of_string s ++ list_ascii_of_string t)%list.
Proof. induction s as [|c s IH]; simpl; [reflexivity|]. now rewrite IH. Qed.

Lemma buffer_from_app (s t : string) :
  buffer_from (s ++ t) = (buffer_from s ++ buffer_from t)%list.
Proof.
  unfold buffer_from. rewrite list_ascii_of_string_append. apply flat_map_app.
Qed.

Lemma to_hex_app (l m : list Z) : to_hex (l ++ m)%list = (to_hex l ++ to_hex m)%list.
Proof. unfold to_hex. apply flat_map_app. Qed.

Lemma to_hex_length (l : list Z) : List.length (to_hex l) = (2 * List.length l)%nat.
Proof. induction l as [|b l IH]; simpl; [reflexivity|]. rewrite IH. lia. Qed.

Lemma buffer_from_length (s : string) : (String.length s <= List.length (buffer_from s))%nat.
Proof.
  induction s as [|c s IH]; [simpl; lia|].
  unfold buffer_from in *. cbn [String.length list_ascii_of_string flat_map].
  rewrite length_app.
  assert (H1 : (1 <= List.length (utf8_char c))%nat)
    by (unfold utf8_char; cbv zeta; destruct (_ <? 128)%Z; simpl; lia).
  lia.
Qed.

Lemma js_toLowerCase_length (s : string) : String.length (js_toLowerCase s) = String.length s.
Proof.
  unfold js_toLowerCase.
  rewrite <- (list_ascii_of_string_of_list_ascii (List.map _ _)) at 1.
  induction s as [|c s IH]; simpl; [reflexivity|]. now f_equal.
Qed.

(** Once the address is 32 characters or longer (every [0x]-address is
    42), the agent's identifier is fixed by the address prefix alone: the
    tier never reaches the 64 retained hex digits. *)
Lemma generateBadgeTokenId_agent_ignores_tier (addr t1 t2 : string) :
  (32 <= String.length addr)%nat ->
  generateBadgeTokenId_agent addr t1 = generateBadgeTokenId_agent addr t2.
Proof.
  intros Hlen. unfold generateBadgeTokenId_agent.
  assert (Hl : (64 <= List.length (to_hex (buffer_from (js_toLowerCase addr))))%nat).
  { rewrite to_hex_length.
    pose proof (buffer_from_length (js_toLowerCase addr)).
    rewrite js_toLowerCase_length in H. lia. }
  rewrite !buffer_from_app, !to_hex_app, !firstn_app.
  replace (64 - List.length (to_hex (buffer_from (js_toLowerCase addr))))%nat with 0%nat by lia.
  reflexivity.
Qed.

Definition ex_address : string := "0x5aAeb6053F3E94C9b9A09f33669435E7Ef1BeAed".

(** C7 (code defect): for a real address the agent's identifier is the same
    for BUILDER and LEADER, it ignores the address's last characters, and
    the client-side generator yields a different identifier for the same
    address and tier. *)
Theorem generateBadgeTokenId_divergence :
  generateBadgeTokenId_agent ex_address "BUILDER" = generateBadgeTokenId_agent ex_address "LEADER" /\
  generateBadgeTokenId_agent ex_address "BUILDER"
    = generateBadgeTokenId_agent "0x5aAeb6053F3E94C9b9A09f33669435E7Ef1B0000" "BUILDER" /\
  generateBadgeTokenId_agent ex_address "BUILDER" <> generateBadgeTokenId_client ex_address "BUILDER".
Proof.
  split; [vm_compute; reflexivity|]. split; [vm_compute; reflexivity|].
  vm_compute. intros H; injection H; discriminate.
Qed.

(** ** Tier achievement timestamps *)

Definition ex_leader_row : UserTier := {|
  user_address := "0x5aaeb6053f3e94c9b9a09f33669435e7ef1beaed";
  current_tier := "LEADER";
  total_score := 760;
  builder_achieved_at := Some "2026-01-05T10:00:00.000Z";
  contributor_achieved_at := Some "2026-02-01T12:00:00.000Z";
  leader_achieved_at := Some "2026-03-01T08:00:00.000Z";
  updated_at := Some "2026-03-01T08:00:00.000Z"
|}.

(** C9 (code defect): a LEADER who submits again gets [leader_achieved_at]
    overwritten with the new time, while the builder and contributor
    timestamps are merged as [existing ?? now]. *)
Theorem updateUserTier_overwrites_leader_timestamp :
  let r := updateUserTier (Some ex_leader_row) "0x5aAeb6053F3E94C9b9A09f33669435E7Ef1BeAed"
             790 "LEADER" "2026-04-01T09:30:00.000Z" in
  leader_achieved_at r = Some "2026-04-01T09:30:00.000Z" /\
  leader_achieved_at ex_leader_row = Some "2026-03-01T08:00:00.000Z" /\
  builder_achieved_at r = builder_achieved_at ex_leader_row /\
  contributor_achieved_at r = contributor_achieved_at ex_leader_row.
Proof. vm_compute. repeat split. Qed.

(** ** The submission response *)

Definition read_total (db : Db) (ok : bool) (address : string) : Z :=
  match getUserTier db ok address with Some t => total_score t | None => 0%Z end.

(** C10: once a submission passes verification and scoring (non-zero
    score, no reject), the response is a success carrying the score, the
    new total and the new tier, and it is the same whether the contribution
    insert, the tier write and the history insert succeed or fail; only the
    tier read feeds the response. *)
Theorem submit_response_ignores_persistence (db : Db) (newId : nat) (now : string)
    (o1 o2 : DbOutcomes) (addr type link : string) (ai : AIVerificationResult)
    (base : Q) (w : bool) :
  let fs := calculateFinalScore ai base w in
  fs <> 0%Z -> recommendation ai <> "reject" -> readOk o1 = readOk o2 ->
  fst (submit_after_ownership db newId now o1 addr type link ai base w)
    = fst (submit_after_ownership db newId now o2 addr type link ai base w) /\
  fst (submit_after_ownership db newId now o1 addr type link ai base w)
    = RespSuccess fs (read_total db (readOk o1) (js_toLowerCase addr) + fs)
        (tier_of_total (read_total db (readOk o1) (js_toLowerCase addr) + fs))
        (if String.eqb (recommendation ai) "accept" then "verified" else "pending").
Proof.
  intros fs Hfs Hrec Hread.
  assert (Hc : (Z.eqb fs 0 || String.eqb (recommendation ai) "reject") = false).
  { apply orb_false_intro; [apply Z.eqb_neq | apply String.eqb_neq]; assumption. }
  unfold submit_after_ownership. fold fs. rewrite Hc.
  destruct (saveContribution _ newId (insertOk o1) _ _ _ _ _) as [b1 t1].
  destruct (saveContribution _ newId (insertOk o2) _ _ _ _ _) as [b2 t2].
  rewrite <- Hread. split; reflexivity.
Qed.

Definition ex_outcomes_failing : DbOutcomes :=
  {| insertOk := false; readOk := true; tierWriteOk := false; historyOk := false |}.
Definition ex_outcomes_ok : DbOutcomes :=
  {| insertOk := true; readOk := true; tierWriteOk := true; historyOk := true |}.

Lemma submit_response_ignores_persistence_witness :
  calculateFinalScore ex_opinion 25 true <> 0%Z /\ recommendation ex_opinion <> "reject" /\
  fst (submit_after_ownership empty_db 0 "2026-04-01T09:30:00.000Z" ex_outcomes_failing ex_address
         "PR_MERGED" "https://github.com/dev" ex_opinion 25 true)
  = fst (submit_after_ownership empty_db 0 "2026-04-01T09:30:00.000Z" ex_outcomes_ok ex_address
         "PR_MERGED" "https://github.com/dev" ex_opinion 25 true).
Proof.
  split; [vm_compute; discriminate|]. split; [vm_compute; discriminate|].
  exact (proj1 (submit_response_ignores_persistence empty_db 0 "2026-04-01T09:30:00.000Z"
                  ex_outcomes_failing ex_outcomes_ok ex_address "PR_MERGED" "https://github.com/dev"
                  ex_opinion 25 true ltac:(vm_compute; discriminate) ltac:(vm_compute; discriminate)
                  eq_refl)).
Defined.

(** ** Contribution record status *)

Definition verified_in (l : list StoredContribution) (id : nat) : Prop :=
  exists c, In c l /\ sc_id c = id /\ sc_status c = "verified".

(** Two accepted submissions of the same address and score: the first's
    score increase reverts, the second's row is not stored (insert error)
    but its score increase is confirmed. *)
Definition ex_sub_reverted : Submission := {|
  s_address := ex_address; s_type := "PR_MERGED"; s_link := "https://github.com/dev";
  s_ai := ex_opinion; s_base := 25; s_db := ex_outcomes_ok;
  s_chain := Fails "execution reverted"; s_markOk := true |}.
Definition ex_sub_unsaved : Submission := {|
  s_address := ex_address; s_type := "PR_MERGED"; s_link := "https://github.com/dev";
  s_ai := ex_opinion; s_base := 25; s_db := ex_outcomes_failing;
  s_chain := Confirmed "0xinc"; s_markOk := true |}.

(** C5 (as stated, refuted): a row can become verified although the
    score-increase step of its own submission never confirmed: the first
    submission's row is marked by the second submission's confirmation,
    because rows are matched by address and score. *)
Lemma C5_counterexample :
  ~ (forall now subs c,
       In c (contributions (run_from empty_db 0 now subs)) -> sc_status c = "verified" ->
       exists s h, nth_error subs (sc_id c) = Some s /\ s_chain s = Confirmed h).
Proof.
  intros H.
  set (subs := [ex_sub_reverted; ex_sub_unsaved]).
  set (now := "2026-04-01T09:30:00.000Z").
  destruct (contributions (run_from empty_db 0 now subs)) as [|c rest] eqn:E.
  - vm_compute in E. discriminate.
  - assert (Hin : In c (contributions (run_from empty_db 0 now subs))) by (rewrite E; left; reflexivity).
    vm_compute in E. injection E as Ec _. subst c.
    destruct (H now subs _ Hin eq_refl) as (s & h & Hn & Hch).
    vm_compute in Hn. injection Hn as <-. discriminate.
Qed.

Lemma saveContribution_pending (tbl : list StoredContribution) (newId : nat) (ok : bool)
    (u t : string) (sc : Z) (l st : string) :
  snd (saveContribution tbl newId ok u t sc l st) = tbl \/
  exists c, snd (saveContribution tbl newId ok u t sc l st) = (tbl ++ [c])%list /\
            sc_id c = newId /\ sc_status c = "pending" /\
            sc_user_address c = js_toLowerCase u /\ sc_score c = sc.
Proof.
  unfold saveContribution.
  destruct (String.eqb u ""); [now left|].
  destruct (String.eqb t ""); [now left|].
  destruct (sc <? 0)%Z; [now left|].
  destruct (String.eqb l ""); [now left|].
  destruct (negb ok); [now left|].
  right. eexists. repeat split; reflexivity.
Qed.

Lemma most_recent_in (l : list StoredContribution) (c : StoredContribution) :
  most_recent l = Some c -> In c l.
Proof.
  unfold most_recent.
  assert (G : forall acc, fold_left (fun acc c => match acc with
                          | Some d => if Nat.ltb (sc_id d) (sc_id c) then Some c else Some d
                          | None => Some c end) l acc = Some c ->
              acc = Some c \/ In c l).
  { induction l as [|x l IH]; intros acc H; simpl in H; [now left|].
    destruct (IH _ H) as [Ha|Ha]; [|right; now right].
    destruct acc as [d|].
    - destruct (Nat.ltb (sc_id d) (sc_id x)); injection Ha as <-; [right; now left|now left].
    - injection Ha as <-. right; now left. }
  intros H. destruct (G None H) as [Hn|Hn]; [discriminate|exact Hn].
Qed.

Lemma most_recent_max (l : list StoredContribution) (c : StoredContribution) :
  most_recent l = Some c -> forall d, In d l -> (sc_id d <= sc_id c)%nat.
Proof.
  unfold most_recent.
  assert (G : forall acc r, fold_left (fun acc c => match acc with
                          | Some d => if Nat.ltb (sc_id d) (sc_id c) then Some c else Some d
                          | None => Some c end) l acc = Some r ->
              (forall a, acc = Some a -> (sc_id a <= sc_id r)%nat) /\
              (forall d, In d l -> (sc_id d <= sc_id r)%nat)).
  { induction l as [|x l IH]; intros acc r H; simpl in H.
    - split; [intros a ->; injection H as ->; lia|intros d []].
    - destruct (IH _ _ H) as [Ha Hl]. split.
      + intros a ->. destruct (Nat.ltb (sc_id a) (sc_id x)) eqn:E.
        * apply Nat.ltb_lt in E. specialize (Ha x eq_refl). lia.
        * apply Ha. reflexivity.
      + intros d [<-|Hd]; [|now apply Hl].
        destruct acc as [a|].
        * destruct (Nat.ltb (sc_id a) (sc_id x)) eqn:E; [now apply Ha|].
          apply Nat.ltb_ge in E. specialize (Ha a eq_refl). lia.
        * now apply Ha. }
  intros H. exact (proj2 (G None c H)).
Qed.

Lemma updateContributionWithTx_verified (tbl : list StoredContribution) (u : string)
    (sc : Z) (tx : string) (ok : bool) (id : nat) :
  verified_in (snd (updateContributionWithTx tbl u sc tx ok)) id ->
  verified_in tbl id \/
  exists c0, In c0 tbl /\ sc_id c0 = id /\ sc_status c0 = "pending" /\
             sc_user_address c0 = js_toLowerCase u /\ sc_score c0 = sc /\
             forall d, (In d tbl \/ In d (snd (updateContributionWithTx tbl u sc tx ok))) ->
               sc_status d = "pending" -> sc_user_address d = js_toLowerCase u -> sc_score d = sc ->
               (sc_id d <= id)%nat.
Proof.
  unfold updateContributionWithTx. cbv zeta.
  destruct (negb ok); [now left|].
  destruct (most_recent _) as [target|] eqn:Hm; [|now left].
  pose proof (most_recent_max _ _ Hm) as Hmax.
  apply most_recent_in, filter_In in Hm as [Hin Hf].
  apply andb_prop in Hf as [Hf Hp]. apply andb_prop in Hf as [Hu Hs].
  apply String.eqb_eq in Hu. apply Z.eqb_eq in Hs. apply String.eqb_eq in Hp.
  assert (Hres : snd (if String.eqb tx "" then (false, List.map (mark_verified (sc_id target) tx) tbl)
                      else (true, List.map (mark_verified (sc_id target) tx) tbl)) =
                 List.map (mark_verified (sc_id target) tx) tbl) by (now destruct (String.eqb tx "")).
  rewrite Hres. intros Hv.
  destruct Hv as (c' & Hc' & Hid & Hst).
  apply in_map_iff in Hc' as (c & <- & Hc).
  unfold mark_verified in Hid, Hst. destruct (Nat.eqb (sc_id c) (sc_id target)) eqn:Heq.
  - right. apply Nat.eqb_eq in Heq. simpl in Hid.
    exists target. repeat split; try assumption; [congruence|].
    intros d Hd Hpd Hud Hsd. rewrite <- Hid, Heq.
    assert (Hdt : In d tbl).
    { destruct Hd as [Hd|Hd]; [exact Hd|].
      apply in_map_iff in Hd as (d' & Ed & Hd').
      unfold mark_verified in Ed. destruct (Nat.eqb (sc_id d') (sc_id target)).
      - subst d. discriminate Hpd.
      - subst d. exact Hd'. }
    apply Hmax, filter_In. split; [exact Hdt|].
    rewrite Hud, Hsd, Hpd, !String.eqb_refl, Z.eqb_refl. reflexivity.
  - left. exists c. repeat split; assumption.
Qed.

(** C5 (amended): for one submission, (1) a stored row is always created
    ['pending'], whatever status the route computed; (2) a submission whose
    score is 0 or whose recommendation is ['reject'] is refused with status
    400, leaves the database unchanged and makes no ledger call; (3) a row
    becomes ['verified'] only when this submission's score-increase
    transaction was confirmed, and the row so marked is the most recent
    (largest id) pending row of the same address with the same score,
    already stored or just inserted, not necessarily this submission's own. *)
Theorem submission_flow_status (db : Db) (newId : nat) (now : string) (s : Submission) :
  let fs := calculateFinalScore (s_ai s) (s_base s) true in
  (forall tbl ok u t sc l st c,
     In c (snd (saveContribution tbl newId ok u t sc l st)) -> ~ In c tbl ->
     sc_status c = "pending") /\
  ((fs = 0%Z \/ recommendation (s_ai s) = "reject") ->
     submit_after_ownership db newId now (s_db s) (s_address s) (s_type s) (s_link s)
       (s_ai s) (s_base s) true = (RespError 400, db) /\
     submission_flow db newId now s = (db, false)) /\
  (forall id, verified_in (contributions (fst (submission_flow db newId now s))) id ->
     verified_in (contributions db) id \/
     (exists h, s_chain s = Confirmed h) /\
     exists c0, sc_id c0 = id /\ sc_status c0 = "pending" /\
       sc_user_address c0 = js_toLowerCase (s_address s) /\ sc_score c0 = fs /\
       (In c0 (contributions db) \/ sc_id c0 = newId) /\
       forall d, (In d (contributions db) \/ In d (contributions (fst (submission_flow db newId now s)))) ->
         sc_status d = "pending" -> sc_user_address d = js_toLowerCase (s_address s) ->
         sc_score d = fs -> (sc_id d <= id)%nat).
Proof.
  intros fs. split; [|split].
  - intros tbl ok u t sc l st c Hin Hnot.
    destruct (saveContribution_pending tbl newId ok u t sc l st) as [E|(c1 & E & _ & Hp & _)];
      rewrite E in Hin; [contradiction|].
    apply in_app_or in Hin as [Hin|[<-|[]]]; [contradiction|exact Hp].
  - intros Hr. unfold submission_flow, submit_after_ownership. fold fs.
    assert (Hc : (Z.eqb fs 0 || String.eqb (recommendation (s_ai s)) "reject") = true).
    { destruct Hr as [->| ->]; [reflexivity|apply orb_true_r]. }
    rewrite Hc. split; reflexivity.
  - intros id. unfold submission_flow, submit_after_ownership. fold fs.
    destruct (Z.eqb fs 0 || String.eqb (recommendation (s_ai s)) "reject"); [now left|].
    set (st := if String.eqb (recommendation (s_ai s)) "accept" then "verified" else "pending").
    set (a := js_toLowerCase (s_address s)).
    pose proof (saveContribution_pending (contributions db) newId (insertOk (s_db s)) a
                  (s_type s) fs (s_link s) st) as Hsave.
    destruct (saveContribution (contributions db) newId (insertOk (s_db s)) a (s_type s) fs (s_link s) st)
      as [ok1 tbl1] eqn:Esave. simpl in Hsave.
    (* rows of [tbl1] that are verified were verified before *)
    assert (Hold : verified_in tbl1 id -> verified_in (contributions db) id).
    { intros (c & Hc & Hid & Hst).
      destruct Hsave as [->|(c1 & -> & _ & Hp & _)]; [exists c; auto|].
      apply in_app_or in Hc as [Hc|[<-|[]]]; [exists c; auto|congruence]. }
    (* a pending row of [tbl1] was in [db] or is the inserted one *)
    assert (Hnew : forall c0, In c0 tbl1 -> In c0 (contributions db) \/ sc_id c0 = newId).
    { intros c0 Hc0. destruct Hsave as [->|(c1 & -> & Hid1 & _)]; [now left|].
      apply in_app_or in Hc0 as [Hc0|[<-|[]]]; [now left|now right]. }
    (* the rows of [db] are kept *)
    assert (Hsub : forall d, In d (contributions db) -> In d tbl1).
    { intros d Hd. destruct Hsave as [->|(c1 & -> & _)]; [exact Hd|].
      apply in_or_app. now left. }
    cbn zeta. simpl fst.
    destruct ((0 <? fs)%Z && negb (String.eqb (recommendation (s_ai s)) "reject")).
    2:{ intros Hv. left. apply Hold. exact Hv. }
    destruct (s_chain s) as [h|m] eqn:Hch.
    2:{ intros Hv. left. apply Hold. exact Hv. }
    intros Hv. simpl in Hv. simpl contributions.
    destruct (updateContributionWithTx_verified tbl1 (s_address s) fs h (s_markOk s) id Hv)
      as [Hv1|(c0 & Hin & Hid & Hp & Hu & Hs & Hmx)].
    + left. apply Hold. exact Hv1.
    + right. split; [exists h; reflexivity|].
      exists c0. split; [exact Hid|]. split; [exact Hp|]. split; [exact Hu|]. split; [exact Hs|].
      split; [apply Hnew; exact Hin|].
      intros d Hd. apply Hmx. destruct Hd as [Hd|Hd]; [left; apply Hsub, Hd|right; exact Hd].
Qed.

Lemma submission_flow_status_witness :
  let now := "2026-04-01T09:30:00.000Z" in
  let refused := {| s_address := ex_address; s_type := "COMMIT"; s_link := "https://github.com/dev";
                    s_ai := noCeloResult; s_base := 10; s_db := ex_outcomes_ok;
                    s_chain := Confirmed "0xinc"; s_markOk := true |} in
  let db0 := fst (submission_flow empty_db 0 now ex_sub_reverted) in
  (submit_after_ownership empty_db 0 now (s_db refused) (s_address refused) (s_type refused)
     (s_link refused) (s_ai refused) (s_base refused) true = (RespError 400, empty_db) /\
   submission_flow empty_db 0 now refused = (empty_db, false)) /\
  verified_in (contributions (fst (submission_flow db0 1 now ex_sub_unsaved))) 0 /\
  ~ verified_in (contributions db0) 0 /\
  (exists h, s_chain ex_sub_unsaved = Confirmed h) /\
  exists c0, sc_id c0 = 0%nat /\ sc_status c0 = "pending" /\ In c0 (contributions db0) /\
    forall d, In d (contributions db0) -> sc_status d = "pending" ->
      sc_user_address d = js_toLowerCase (s_address ex_sub_unsaved) ->
      sc_score d = calculateFinalScore (s_ai ex_sub_unsaved) (s_base ex_sub_unsaved) true ->
      (sc_id d <= 0)%nat.
Proof.
  intros now refused db0.
  split; [exact (proj1 (proj2 (submission_flow_status empty_db 0 now refused)) (or_intror eq_refl))|].
  assert (Hv : verified_in (contributions (fst (submission_flow db0 1 now ex_sub_unsaved))) 0).
  { exists (List.hd ex_row_a (contributions (fst (submission_flow db0 1 now ex_sub_unsaved)))).
    split; [vm_compute; left; reflexivity|split; vm_compute; reflexivity]. }
  assert (Hn : ~ verified_in (contributions db0) 0).
  { intros (c & Hc & _ & Hst). vm_compute in Hc. destruct Hc as [<-|[]].
    vm_compute in Hst. discriminate. }
  split; [exact Hv|]. split; [exact Hn|].
  destruct (proj2 (proj2 (submission_flow_status db0 1 now ex_sub_unsaved)) 0%nat Hv)
    as [Hl|[Hh (c0 & Hid & Hp & _ & _ & Hin & Hmx)]]; [contradiction|].
  split; [exact Hh|].
  exists c0. split; [exact Hid|]. split; [exact Hp|].
  split; [destruct Hin as [Hin|Hin]; [exact Hin|rewrite Hin in Hid; discriminate]|].
  intros d Hd. apply (Hmx d). left. exact Hd.
Defined.

(** ** Address normalisation and the ownership check *)

(** [getChecksumAddress] agrees with ethers' published EIP-55 vectors. *)
Example getAddress_eip55_vectors :
  getAddress "0x5aaeb6053f3e94c9b9a09f33669435e7ef1beaed" = Some "0x5aAeb6053F3E94C9b9A09f33669435E7Ef1BeAed" /\
  getAddress "0xFB6916095CA1DF60BB79CE92CE3EA74C37C5D359" = Some "0xfB6916095ca1df60bB79Ce92cE3Ea74c37c5d359" /\
  getAddress "dbf03b407c01e7cd3cbea99509d93f8dddc8c6fb" = Some "0xdbF03B407c01E7cD3CBea99509d93f8DDDC8C6FB" /\
  getAddress "0xD1220A0cf47c7B9Be7A2E6BA89F429762e7b9aDb" = Some "0xD1220A0cf47c7B9Be7A2E6BA89F429762e7b9aDb" /\
  getAddress "XE7338O073KYGTWWZN0F2WZ0R8PX5ZPPZS" = Some "0x00c5496aEe77C1bA1f0854206A26DdA82a81D6D8".
Proof. vm_compute. repeat split. Qed.

Lemma js_lower_upper_char (c : ascii) : js_lower_char (js_upper_char c) = js_lower_char c.
Proof. destruct c as [[] [] [] [] [] [] [] []]; vm_compute; reflexivity. Qed.

Lemma js_lower_char_idem (c : ascii) : js_lower_char (js_lower_char c) = js_lower_char c.
Proof. destruct c as [[] [] [] [] [] [] [] []]; vm_compute; reflexivity. Qed.

Lemma map_lower_mapi_from (f : nat -> ascii -> ascii) (i : nat) (l : list ascii) :
  (forall j c, f j c = c \/ f j c = js_upper_char c) ->
  List.map js_lower_char (mapi_from i f l) = List.map js_lower_char l.
Proof.
  intros Hf. revert i. induction l as [|c l IH]; intros i; simpl; [reflexivity|].
  rewrite IH. f_equal. destruct (Hf i c) as [E|E]; rewrite E; [reflexivity|].
  apply js_lower_upper_char.
Qed.

(** The checksum only changes the case of letters. *)
Lemma getChecksumAddress_lower (rest : list ascii) :
  List.map js_lower_char (getChecksumAddress ("0"%char :: "x"%char :: rest))
  = "0"%char :: "x"%char :: List.map js_lower_char rest.
Proof.
  unfold getChecksumAddress. cbv zeta.
  change (List.map js_lower_char ("0"%char :: "x"%char :: ?m))
    with ("0"%char :: "x"%char :: List.map js_lower_char m).
  change (skipn 2 (List.map js_lower_char ("0"%char :: "x"%char :: rest)))
    with (List.map js_lower_char rest).
  do 2 f_equal. rewrite map_lower_mapi_from.
  - rewrite List.map_map. apply List.map_ext, js_lower_char_idem.
  - intros j c. repeat match goal with |- context [if ?b then _ else _] => destruct b end; auto.
Qed.

Lemma getAddress_list_0x (rest r : list ascii) :
  getAddress_list ("0"%char :: "x"%char :: rest) = Some r ->
  List.map js_lower_char r = "0"%char :: "x"%char :: List.map js_lower_char rest.
Proof.
  unfold getAddress_list. change (starts_0x ("0"%char :: "x"%char :: rest)) with true.
  change (icap_form ("0"%char :: "x"%char :: rest)) with false.
  destruct (hex40_form _); [|discriminate].
  destruct (_ && _); [discriminate|]. intros E; injection E as <-.
  apply getChecksumAddress_lower.
Qed.

(** For a [0x]-form, [getAddress] succeeds exactly on 40 hex digits whose
    letters are all of one case or carry the right checksum. *)
Lemma getAddress_list_0x_accepts (rest : list ascii) :
  getAddress_list ("0"%char :: "x"%char :: rest) <> None <->
  hex40_form ("0"%char :: "x"%char :: rest) = true /\
  (mixed_case ("0"%char :: "x"%char :: rest) = false \/
   ascii_list_eqb (getChecksumAddress ("0"%char :: "x"%char :: rest))
                  ("0"%char :: "x"%char :: rest) = true).
Proof.
  unfold getAddress_list. change (starts_0x ("0"%char :: "x"%char :: rest)) with true.
  change (icap_form ("0"%char :: "x"%char :: rest)) with false.
  destruct (hex40_form _); [|split; [intros H; now contradiction H | intros [H _]; discriminate]].
  destruct (mixed_case _), (ascii_list_eqb _ _); simpl; split; intros H;
    try discriminate; try tauto; try (split; [reflexivity | tauto]).
  destruct H as [_ [H|H]]; discriminate.
Qed.

Lemma starts_0x_inv (l : list ascii) :
  starts_0x l = true -> exists rest, l = "0"%char :: "x"%char :: rest.
Proof.
  intros H. destruct l as [|a l]; [discriminate|].
  destruct a as [[] [] [] [] [] [] [] []]; try discriminate.
  destruct l as [|b l]; [discriminate|].
  destruct b as [[] [] [] [] [] [] [] []]; try discriminate. eauto.
Qed.

Lemma first_wallet_0x (l w : list ascii) :
  first_wallet l = Some w -> exists rest, w = "0"%char :: "x"%char :: rest.
Proof.
  induction l as [|a l IH]; cbn [first_wallet]; [discriminate|].
  destruct (starts_0x (a :: l) && _ && _) eqn:E; [|exact IH].
  intros H; injection H as <-.
  apply andb_true_iff in E as [E _]. apply andb_true_iff in E as [E _].
  destruct (starts_0x_inv _ E) as [rest Hr]. injection Hr as -> ->. eexists. reflexivity.
Qed.

(** Every address found in a bio is a [0x]-form. *)
Lemma extractWalletFromText_0x (bio : option string) (b : string) :
  extractWalletFromText bio = Some b ->
  exists rest, list_ascii_of_string b = "0"%char :: "x"%char :: rest.
Proof.
  destruct bio as [t|]; [|discriminate]. unfold extractWalletFromText.
  destruct (String.eqb t ""); [discriminate|].
  destruct (first_wallet _) as [w|] eqn:E; [|discriminate].
  intros H; injection H as <-. rewrite list_ascii_of_string_of_list_ascii.
  exact (first_wallet_0x _ _ E).
Qed.

(** Normalising a [0x]-form keeps its lowercase form. *)
Lemma getAddress_lower (x p : string) (rest : list ascii) :
  list_ascii_of_string x = "0"%char :: "x"%char :: rest ->
  getAddress x = Some p -> js_toLowerCase p = js_toLowerCase x.
Proof.
  intros Hx. unfold getAddress. rewrite Hx.
  destruct (getAddress_list _) as [r|] eqn:E; [|discriminate].
  intros H; injection H as <-. unfold js_toLowerCase.
  rewrite list_ascii_of_string_of_list_ascii, Hx, (getAddress_list_0x _ _ E).
  reflexivity.
Qed.

Lemma ownership_confirmed_iff (bio : option string) (d p : string) :
  ownership_check bio d = OwnConfirmed p <->
  d <> "" /\ exists b bw, extractWalletFromText bio = Some b /\ getAddress b = Some bw /\
                          getAddress d = Some p /\ js_toLowerCase p = js_toLowerCase bw.
Proof.
  unfold ownership_check, normalizeAddress.
  destruct (String.eqb d "") eqn:Ed.
  { apply String.eqb_eq in Ed. split; [discriminate | intros [Hne _]; contradiction]. }
  apply String.eqb_neq in Ed.
  destruct (extractWalletFromText bio) as [w|] eqn:Ex;
    [|split; [discriminate | intros (_ & b & bw & Hb & _); discriminate]].
  destruct (getAddress w) as [bw|] eqn:Gw;
    [|split; [discriminate | intros (_ & b & bw & Hb & Hg & _); injection Hb as Hb; subst; congruence]].
  destruct (getAddress d) as [q|] eqn:Gd;
    [|split; [discriminate | intros (_ & b & bw' & _ & _ & Hd & _); discriminate]].
  destruct (String.eqb (js_toLowerCase q) (js_toLowerCase bw)) eqn:Eq.
  - apply String.eqb_eq in Eq. split.
    + intros H; injection H as H; subst. split; [exact Ed|]. exists w, bw. auto.
    + intros (_ & b & bw' & Hb & Hg & Hd & Hl). injection Hd as Hd; subst. reflexivity.
  - apply String.eqb_neq in Eq. split; [discriminate|].
    intros (_ & b & bw' & Hb & Hg & Hd & Hl). injection Hb as Hb; subst.
    rewrite Gw in Hg; injection Hg as Hg; subst. injection Hd as Hd; subst. contradiction.
Qed.

Lemma ownership_case_insensitive (bio : option string) (d b : string) (rest : list ascii) :
  extractWalletFromText bio = Some b ->
  list_ascii_of_string d = "0"%char :: "x"%char :: rest ->
  js_toLowerCase d = js_toLowerCase b ->
  getAddress d <> None -> getAddress b <> None ->
  exists p, ownership_check bio d = OwnConfirmed p.
Proof.
  intros Hb Hd Hl Gd Gb.
  destruct (getAddress d) as [p|] eqn:Ed; [|contradiction].
  destruct (getAddress b) as [bw|] eqn:Eb; [|contradiction].
  exists p. apply ownership_confirmed_iff. split.
  - intros ->. discriminate.
  - exists b, bw. repeat split; auto.
    destruct (extractWalletFromText_0x _ _ Hb) as [rb Hrb].
    rewrite (getAddress_lower _ _ _ Hd Ed), (getAddress_lower _ _ _ Hrb Eb). exact Hl.
Qed.

Lemma ownership_rejects_mismatch (bio : option string) (d b p : string) (rest : list ascii) :
  extractWalletFromText bio = Some b ->
  list_ascii_of_string d = "0"%char :: "x"%char :: rest ->
  js_toLowerCase d <> js_toLowerCase b ->
  ownership_check bio d <> OwnConfirmed p.
Proof.
  intros Hb Hd Hl H. apply ownership_confirmed_iff in H as (_ & b' & bw & Hb' & Gb & Gd & Hp).
  rewrite Hb in Hb'. injection Hb' as Hb'; subst b'.
  destruct (extractWalletFromText_0x _ _ Hb) as [rb Hrb].
  rewrite (getAddress_lower _ _ _ Hd Gd), (getAddress_lower _ _ _ Hrb Gb) in Hp.
  contradiction.
Qed.

(** C6 (counterexample): "a declared address and a bio address that differ
    only in letter case are accepted as matching" fails. The bio carries
    [0x5aaeb...beaed]; the declared [0x5aAeb...BeAeD] has the same lowercase
    form, but its mixed case is not the EIP-55 checksum, so [getAddress]
    throws and the submission is rejected with 400. *)
Lemma C6_counterexample :
  ~ (forall (bio : option string) (d b : string),
       extractWalletFromText bio = Some b ->
       js_toLowerCase d = js_toLowerCase b ->
       exists p, ownership_check bio d = OwnConfirmed p).
Proof.
  intros H. destruct (H ex_bio ex_flipped ex_bio_wallet) as [p Hp];
    [vm_compute; reflexivity | vm_compute; reflexivity |].
  vm_compute in Hp. discriminate.
Qed.

(** C6 (amended): the ownership check confirms exactly when the bio has an
    address [b], both [b] and the declared address [d] pass ethers'
    [getAddress], and the lowercase forms of the two normalised addresses
    agree; everything else is a 400 rejection. For [0x]-forms this is
    comparison of lowercase forms among addresses that pass [getAddress];
    [getAddress] accepts a [0x]-form exactly when it has 40 hex digits whose
    letters are all of one case or spell out the EIP-55 checksum. *)
Theorem ownership_check_spec (bio : option string) (d : string) :
  (forall p, ownership_check bio d = OwnConfirmed p <->
     d <> "" /\ exists b bw, extractWalletFromText bio = Some b /\ getAddress b = Some bw /\
                             getAddress d = Some p /\ js_toLowerCase p = js_toLowerCase bw) /\
  (forall b rest, extractWalletFromText bio = Some b ->
     list_ascii_of_string d = "0"%char :: "x"%char :: rest ->
     js_toLowerCase d = js_toLowerCase b ->
     getAddress d <> None -> getAddress b <> None ->
     exists p, ownership_check bio d = OwnConfirmed p) /\
  (forall b rest p, extractWalletFromText bio = Some b ->
     list_ascii_of_string d = "0"%char :: "x"%char :: rest ->
     js_toLowerCase d <> js_toLowerCase b ->
     ownership_check bio d <> OwnConfirmed p) /\
  (forall rest, list_ascii_of_string d = "0"%char :: "x"%char :: rest ->
     (getAddress d <> None <->
      hex40_form ("0"%char :: "x"%char :: rest) = true /\
      (mixed_case ("0"%char :: "x"%char :: rest) = false \/
       ascii_list_eqb (getChecksumAddress ("0"%char :: "x"%char :: rest))
                      ("0"%char :: "x"%char :: rest) = true))).
Proof.
  split; [|split; [|split]].
  - intros p. apply ownership_confirmed_iff.
  - intros b rest. apply ownership_case_insensitive.
  - intros b rest p. apply ownership_rejects_mismatch.
  - intros rest Hd. rewrite <- getAddress_list_0x_accepts.
    unfold getAddress. rewrite Hd.
    destruct (getAddress_list _); simpl; split; intros H; try discriminate; auto.
Qed.

(** The all-uppercase declared form of the bio's address is accepted. *)
Lemma ownership_check_spec_witness :
  extractWalletFromText ex_bio = Some ex_bio_wallet /\
  js_toLowerCase ex_upper = js_toLowerCase ex_bio_wallet /\
  ownership_check ex_bio ex_upper = OwnConfirmed "0x5aAeb6053F3E94C9b9A09f33669435E7Ef1BeAed" /\
  exists p, ownership_check ex_bio ex_upper = OwnConfirmed p.
Proof.
  split; [vm_compute; reflexivity|].
  split; [vm_compute; reflexivity|].
  split; [vm_compute; reflexivity|].
  destruct (ownership_check_spec ex_bio ex_upper) as [_ [Hb _]].
  apply (Hb ex_bio_wallet (skipn 2 (list_ascii_of_string ex_upper))).
  - vm_compute. reflexivity.
  - vm_compute. reflexivity.
  - vm_compute. reflexivity.
  - vm_compute. discriminate.
  - vm_compute. discriminate.
Defined.

(** ** Scorer, tier helpers and badge minting *)

Lemma js_min_max_bounds (lo hi m : Q) : lo <= hi -> lo <= js_min hi (js_max lo m) <= hi.
Proof.
  intros H; unfold js_min, js_max.
  destruct (Qlt_le_dec lo m); destruct (Qlt_le_dec _ hi); lra.
Qed.

Lemma calculateMultiplier_range (c : AgentContribution) :
  (1#2) <= calculateMultiplier c <= 2.
Proof. unfold calculateMultiplier; apply js_min_max_bounds; lra. Qed.

Lemma Qfloor_half_Z (b : Z) : Qfloor (inject_Z b * (1#2)) = (b / 2)%Z.
Proof. unfold Qfloor, inject_Z, Qmult; cbn. now rewrite Z.mul_1_r. Qed.

Lemma Qfloor_double_Z (b : Z) : Qfloor (inject_Z b * 2) = (b * 2)%Z.
Proof. unfold Qfloor, inject_Z, Qmult; cbn. now rewrite Z.div_1_r. Qed.

Lemma Qfloor_scaled_range (b : Z) (m : Q) :
  (0 <= b)%Z -> (1#2) <= m <= 2 -> (b / 2 <= Qfloor (inject_Z b * m) <= 2 * b)%Z.
Proof.
  intros Hb [Hlo Hhi].
  assert (0 <= inject_Z b) by (change 0 with (inject_Z 0); rewrite <- Zle_Qle; exact Hb).
  rewrite <- Qfloor_half_Z, Z.mul_comm, <- Qfloor_double_Z.
  split; apply Qfloor_resp_le;
    [rewrite (Qmult_comm _ (1#2)), (Qmult_comm _ m) | rewrite (Qmult_comm _ m), (Qmult_comm _ 2)];
    apply Qmult_le_compat_r; assumption.
Qed.

Lemma calculateScore_bounds (c : AgentContribution) :
  let r := calculateScore c in
  (1#2) <= sr_multiplier r <= 2 /\
  (sr_baseScore r / 2 <= sr_finalScore r <= 2 * sr_baseScore r)%Z /\
  (1 <= sr_finalScore r)%Z.
Proof.
  cbn zeta. unfold calculateScore; cbn [sr_multiplier sr_baseScore sr_finalScore].
  pose proof (calculateMultiplier_range c) as Hm.
  assert (Hb : (3 <= baseScores (ac_type c))%Z) by (destruct (ac_type c); cbn; lia).
  pose proof (Qfloor_scaled_range (baseScores (ac_type c)) _ ltac:(lia) Hm) as Hr.
  split; [exact Hm|]. split; [exact Hr|].
  assert (1 <= baseScores (ac_type c) / 2)%Z by (apply Z.div_le_lower_bound; lia). lia.
Qed.

Lemma prefix_length (s1 s2 : string) : String.prefix s1 s2 = true -> (String.length s1 <= String.length s2)%nat.
Proof.
  revert s2; induction s1 as [|a s1 IH]; intros s2 H; simpl; [lia|].
  destruct s2 as [|b s2]; simpl in H; [discriminate|].
  destruct (ascii_dec a b); [simpl; apply le_n_S, IH, H | discriminate].
Qed.

Lemma index0_length (s1 s2 : string) (k : nat) :
  String.index 0 s1 s2 = Some k -> (String.length s1 <= String.length s2)%nat.
Proof.
  revert k; induction s2 as [|b s2 IH]; intros k H.
  - simpl in H. destruct s1; simpl in H; [simpl; lia | discriminate].
  - change ((if String.prefix s1 (String b s2) then Some 0%nat
             else match String.index 0 s1 s2 with Some n => Some (S n) | None => None end)
            = Some k) in H.
    destruct (String.prefix s1 (String b s2)) eqn:P.
    + now apply prefix_length.
    + destruct (String.index 0 s1 s2) as [j|] eqn:E; [|discriminate].
      simpl. specialize (IH j eq_refl). lia.
Qed.

Lemma includes_short (m s : string) :
  (String.length m < String.length s)%nat -> includes m s = false.
Proof.
  intros H; unfold includes. destruct (String.index 0 s m) as [k|] eqn:E; [|reflexivity].
  apply index0_length in E; lia.
Qed.

Lemma calculateScore_short_description (c : AgentContribution) :
  (String.length (ac_description c) < 5)%nat ->
  sr_multiplier (calculateScore c) = (1#2) /\
  sr_finalScore (calculateScore c) = (baseScores (ac_type c) / 2)%Z.
Proof.
  intros H.
  assert (Hs : isSpam c = true).
  { unfold isSpam. destruct existsb; [reflexivity|].
    apply Nat.ltb_lt in H; now rewrite H. }
  assert (Hm : calculateMultiplier c = (1#2)).
  { unfold calculateMultiplier. rewrite Hs.
    pose proof (js_toLowerCase_length (ac_description c)) as HL.
    set (d := js_toLowerCase (ac_description c)) in *.
    rewrite !(includes_short d) by (rewrite HL; simpl; lia).
    replace (Nat.ltb 50 (String.length d)) with false by (symmetry; apply Nat.ltb_ge; lia).
    cbn [orb]. destruct (ac_type c); reflexivity. }
  unfold calculateScore; cbn [sr_multiplier sr_finalScore].
  rewrite Hm. split; [reflexivity|]. apply Qfloor_half_Z.
Qed.

Lemma calculateScore_short_description_witness :
  (String.length "wip" < 5)%nat /\
  sr_multiplier (calculateScore {| ac_user := "alice"; ac_type := Agent_COMMIT; ac_description := "wip" |}) = (1#2) /\
  sr_finalScore (calculateScore {| ac_user := "alice"; ac_type := Agent_COMMIT; ac_description := "wip" |}) = 1%Z.
Proof.
  split; [simpl; lia|].
  apply (calculateScore_short_description {| ac_user := "alice"; ac_type := Agent_COMMIT; ac_description := "wip" |}).
  simpl; lia.
Defined.

Lemma tier_functions_agree (n : Z) :
  getTierForScore n = checkTierQualification n /\
  getTier n = tier_of_total n /\
  match getTierForScore n with
  | None => getTier n = "UNRANKED" /\ (n < 100)%Z
  | Some t => getTier n = t /\ (100 <= n)%Z
  end.
Proof.
  unfold getTierForScore, checkTierQualification, getTier, tier_of_total.
  destruct (700 <=? n)%Z eqn:E1; [apply Z.leb_le in E1; repeat split; lia|].
  destruct (300 <=? n)%Z eqn:E2; [apply Z.leb_le in E2; repeat split; lia|].
  destruct (100 <=? n)%Z eqn:E3; [apply Z.leb_le in E3 | apply Z.leb_gt in E3]; repeat split; lia.
Qed.

Lemma getTier_cases (n : Z) :
  (n < 100 /\ getTier n = "UNRANKED")%Z \/ (100 <= n < 300 /\ getTier n = "BUILDER")%Z \/
  (300 <= n < 700 /\ getTier n = "CONTRIBUTOR")%Z \/ (700 <= n /\ getTier n = "LEADER")%Z.
Proof.
  unfold getTier.
  destruct (700 <=? n)%Z eqn:E1; [apply Z.leb_le in E1; right; right; right; auto|apply Z.leb_gt in E1].
  destruct (300 <=? n)%Z eqn:E2; [apply Z.leb_le in E2; right; right; left; auto|apply Z.leb_gt in E2].
  destruct (100 <=? n)%Z eqn:E3; [apply Z.leb_le in E3; right; left; auto|apply Z.leb_gt in E3; left; auto].
Qed.

Lemma getTier_monotone (m n : Z) :
  (m <= n)%Z -> (tier_rank (getTier m) <= tier_rank (getTier n))%nat.
Proof.
  intros H.
  destruct (getTier_cases m) as [[? ->]|[[? ->]|[[? ->]|[? ->]]]];
  destruct (getTier_cases n) as [[? ->]|[[? ->]|[[? ->]|[? ->]]]];
  vm_compute; lia.
Qed.

Lemma getTier_monotone_witness :
  (150 <= 420)%Z /\ (tier_rank (getTier 150) <= tier_rank (getTier 420))%nat.
Proof. split; [lia | apply getTier_monotone; lia]. Defined.

Lemma pointsNeeded_next_tier (n : Z) :
  match nextMilestone n with
  | Some m =>
      pointsNeeded n = (m - n)%Z /\ (0 < pointsNeeded n)%Z /\
      (forall k, (0 <= k < pointsNeeded n)%Z -> getTier (n + k) = getTier n) /\
      (tier_rank (getTier n) < tier_rank (getTier (n + pointsNeeded n)))%nat
  | None =>
      pointsNeeded n = 0%Z /\ (forall k, (0 <= k)%Z -> getTier (n + k) = "LEADER")
  end.
Proof.
  unfold pointsNeeded, nextMilestone.
  destruct (n <? 100)%Z eqn:E1; [apply Z.ltb_lt in E1 | apply Z.ltb_ge in E1].
  { repeat split; try lia.
    - intros k Hk. destruct (getTier_cases (n + k)) as [[? ->]|[[? ?]|[[? ?]|[? ?]]]];
        destruct (getTier_cases n) as [[? ->]|[[? ?]|[[? ?]|[? ?]]]]; first [reflexivity | lia].
    - replace (n + (100 - n))%Z with 100%Z by lia.
      destruct (getTier_cases n) as [[? ->]|[[? ?]|[[? ?]|[? ?]]]]; [vm_compute; lia|lia..]. }
  destruct (n <? 300)%Z eqn:E2; [apply Z.ltb_lt in E2 | apply Z.ltb_ge in E2].
  { repeat split; try lia.
    - intros k Hk. destruct (getTier_cases (n + k)) as [[? ?]|[[? ->]|[[? ?]|[? ?]]]];
        destruct (getTier_cases n) as [[? ?]|[[? ->]|[[? ?]|[? ?]]]]; first [reflexivity | lia].
    - replace (n + (300 - n))%Z with 300%Z by lia.
      destruct (getTier_cases n) as [[? ?]|[[? ->]|[[? ?]|[? ?]]]]; [lia|vm_compute; lia|lia..]. }
  destruct (n <? 700)%Z eqn:E3; [apply Z.ltb_lt in E3 | apply Z.ltb_ge in E3].
  { repeat split; try lia.
    - intros k Hk. destruct (getTier_cases (n + k)) as [[? ?]|[[? ?]|[[? ->]|[? ?]]]];
        destruct (getTier_cases n) as [[? ?]|[[? ?]|[[? ->]|[? ?]]]]; first [reflexivity | lia].
    - replace (n + (700 - n))%Z with 700%Z by lia.
      destruct (getTier_cases n) as [[? ?]|[[? ?]|[[? ->]|[? ?]]]]; [lia|lia|vm_compute; lia|lia]. }
  split; [reflexivity|]. intros k Hk.
  destruct (getTier_cases (n + k)) as [[? ?]|[[? ?]|[[? ?]|[? ->]]]]; [lia..|reflexivity].
Qed.

Lemma buffer_from_bytes (s : string) : Forall is_byte (buffer_from s).
Proof.
  unfold buffer_from. induction (list_ascii_of_string s) as [|c l IH]; simpl; [constructor|].
  apply Forall_app; split; [|exact IH].
  pose proof (nat_ascii_bounded c). unfold utf8_char, is_byte; cbv zeta.
  assert (Hn : (0 <= Z.of_nat (nat_of_ascii c) < 256)%Z) by lia.
  set (n := Z.of_nat (nat_of_ascii c)) in *. clearbody n.
  destruct (n <? 128)%Z eqn:E;
    [apply Z.ltb_lt in E | apply Z.ltb_ge in E];
    repeat first [apply Forall_nil | apply Forall_cons]; unfold is_byte; Z.div_mod_to_equations; lia.
Qed.

Lemma b64_char_table :
  forallb (fun k => match b64_value (b64_char (Z.of_nat k)) with
                    | Some v => Z.eqb v (Z.of_nat k) | None => false end
                    && negb (Ascii.eqb (b64_char (Z.of_nat k)) "="))
          (seq 0 64) = true.
Proof. vm_compute. reflexivity. Qed.

Lemma b64_char_spec (v : Z) :
  (0 <= v < 64)%Z -> b64_value (b64_char v) = Some v /\ Ascii.eqb (b64_char v) "=" = false.
Proof.
  intros Hv. pose proof b64_char_table as T. rewrite forallb_forall in T.
  specialize (T (Z.to_nat v)). rewrite Z2Nat.id in T by lia.
  assert (In (Z.to_nat v) (seq 0 64)) as Hin by (apply in_seq; lia).
  specialize (T Hin). apply andb_prop in T as [T1 T2].
  destruct (b64_value (b64_char v)) as [w|]; [|discriminate].
  apply Z.eqb_eq in T1; subst w. split; [reflexivity|]. now apply negb_true_iff.
Qed.

Ltac zdm := Z.div_mod_to_equations; lia.

Lemma base64_roundtrip (bs : list Z) :
  Forall is_byte bs -> base64_decode (base64_encode bs) = Some bs.
Proof.
  intros Hb. remember (List.length bs) as len eqn:Hlen.
  revert bs Hb Hlen. induction len as [len IH] using (well_founded_induction lt_wf).
  intros bs Hb Hlen.
  destruct bs as [|b0 [|b1 [|b2 rest]]].
  - reflexivity.
  - inversion Hb as [|? ? Ha0 _]; unfold is_byte in Ha0.
    destruct (b64_char_spec (b0 / 4) ltac:(zdm)) as [V0 _].
    destruct (b64_char_spec ((b0 mod 4) * 16) ltac:(zdm)) as [V1 _].
    cbn [base64_encode base64_decode]. rewrite V0, V1. cbn.
    f_equal. f_equal. zdm.
  - inversion Hb as [|? ? Ha0 Hb']; inversion Hb' as [|? ? Ha1 _]; unfold is_byte in *.
    destruct (b64_char_spec (b0 / 4) ltac:(zdm)) as [V0 _].
    destruct (b64_char_spec ((b0 mod 4) * 16 + b1 / 16) ltac:(zdm)) as [V1 _].
    destruct (b64_char_spec ((b1 mod 16) * 4) ltac:(zdm)) as [V2 E2].
    cbn [base64_encode base64_decode]. rewrite V0, V1, E2, V2. cbn.
    f_equal. f_equal; [zdm|]. f_equal; zdm.
  - inversion Hb as [|? ? Ha0 Hb']; inversion Hb' as [|? ? Ha1 Hb'']; inversion Hb'' as [|? ? Ha2 Hr];
      unfold is_byte in Ha0, Ha1, Ha2.
    destruct (b64_char_spec (b0 / 4) ltac:(zdm)) as [V0 _].
    destruct (b64_char_spec ((b0 mod 4) * 16 + b1 / 16) ltac:(zdm)) as [V1 _].
    destruct (b64_char_spec ((b1 mod 16) * 4 + b2 / 64) ltac:(zdm)) as [V2 E2].
    destruct (b64_char_spec (b2 mod 64) ltac:(zdm)) as [V3 E3].
    cbn [base64_encode base64_decode]. rewrite V0, V1, E2, V2, E3, V3.
    rewrite (IH (List.length rest)) with (bs := rest); [| simpl in Hlen; lia | exact Hr | reflexivity].
    cbn. repeat f_equal; zdm.
Qed.

Lemma encodeBadgeSVG_decodes (svg : string) :
  exists payload : list ascii,
    encodeBadgeSVG svg = "data:image/svg+xml;base64," ++ string_of_list_ascii payload /\
    base64_decode payload = Some (buffer_from svg) /\
    reputation_badge_src (encodeBadgeSVG svg) = encodeBadgeSVG svg.
Proof.
  exists (base64_encode (buffer_from svg)). split; [reflexivity|]. split.
  - apply base64_roundtrip, buffer_from_bytes.
  - unfold reputation_badge_src, encodeBadgeSVG. reflexivity.
Qed.

Lemma string_length_append (s t : string) :
  String.length (s ++ t) = (String.length s + String.length t)%nat.
Proof. induction s as [|c s IH]; simpl; [reflexivity|]. now rewrite IH. Qed.

Lemma generateBadgeTokenId_client_some (userAddress tier : string) :
  tier <> "" -> exists tokenId, generateBadgeTokenId_client userAddress tier = Some tokenId.
Proof.
  intros Ht. unfold generateBadgeTokenId_client, bigint_of_hex.
  destruct (firstn 62 (to_hex (buffer_from (js_toLowerCase userAddress ++ tier)))) eqn:E;
    [|eexists; reflexivity].
  exfalso. apply Ht.
  assert (Hl := f_equal (@List.length _) E). rewrite length_firstn, to_hex_length in Hl.
  pose proof (buffer_from_length (js_toLowerCase userAddress ++ tier)) as Hb.
  rewrite string_length_append in Hb. cbn [List.length] in Hl.
  destruct tier; [reflexivity|]. cbn [String.length] in Hb. lia.
Qed.


Lemma mintBadge_from_builder (tx : StepOutcome) (userAddress : string) (totalScore : Z) :
  (100 <= totalScore)%Z ->
  exists tokenId,
    generateBadgeTokenId_client userAddress (tier_of_total totalScore) = Some tokenId /\
    mintBadge true None tx userAddress totalScore =
      (match tx with
       | Confirmed h => {| mb_success := true; mb_tier := Some (tier_of_total totalScore);
                           mb_txHash := Some h; mb_error := None |}
       | Fails m => mint_error m
       end,
       [{| m_to := userAddress; m_tokenId := tokenId;
           m_uri := encodeBadgeSVG (generateBadgeSVG (tier_of_total totalScore)) |}]).
Proof.
  intros H.
  assert (Ht : getTierForScore totalScore = Some (tier_of_total totalScore) /\
               tier_of_total totalScore <> "").
  { unfold getTierForScore, tier_of_total.
    destruct (700 <=? totalScore)%Z; [split; [reflexivity|discriminate]|].
    destruct (300 <=? totalScore)%Z; [split; [reflexivity|discriminate]|].
    replace (100 <=? totalScore)%Z with true by (symmetry; apply Z.leb_le; lia).
    split; [reflexivity|discriminate]. }
  destruct Ht as [Ht Hne].
  destruct (generateBadgeTokenId_client_some userAddress _ Hne) as [tokenId Hid].
  exists tokenId. split; [exact Hid|].
  unfold mintBadge. cbn [negb]. rewrite Ht, Hid. destruct tx; reflexivity.
Qed.


Lemma mintBadge_from_builder_witness :
  (100 <= 350)%Z /\
  exists tokenId,
    generateBadgeTokenId_client "0x5aAeb6053F3E94C9b9A09f33669435E7Ef1BeAed" (tier_of_total 350) = Some tokenId /\
    mintBadge true None (Confirmed "0xabc") "0x5aAeb6053F3E94C9b9A09f33669435E7Ef1BeAed" 350 =
      ({| mb_success := true; mb_tier := Some (tier_of_total 350);
          mb_txHash := Some "0xabc"; mb_error := None |},
       [{| m_to := "0x5aAeb6053F3E94C9b9A09f33669435E7Ef1BeAed"; m_tokenId := tokenId;
           m_uri := encodeBadgeSVG (generateBadgeSVG (tier_of_total 350)) |}]).
Proof. split; [lia|]. apply (mintBadge_from_builder (Confirmed "0xabc")). lia. Defined.

(** ** GitHub analysis *)

Lemma take_while_split (p : ascii -> bool) (l : list ascii) :
  Forall (fun c => p c = true) (take_while p l) /\
  exists rest, l = app (take_while p l) rest /\
    match rest with [] => True | c :: _ => p c = false end.
Proof.
  induction l as [|c l [IHf [rest [IHe IHr]]]]; simpl.
  - split; [constructor|]. exists []. split; [reflexivity|exact I].
  - destruct (p c) eqn:E.
    + split; [constructor; assumption|]. exists rest. simpl. rewrite <- IHe. split; [reflexivity|exact IHr].
    + split; [constructor|]. exists (c :: l). split; [reflexivity|exact E].
Qed.

Lemma starts_with_app (pre l : list ascii) :
  starts_with pre l = true -> l = app pre (skipn (List.length pre) l).
Proof.
  revert l; induction pre as [|c pre IH]; intros l H; [reflexivity|].
  destruct l as [|d l]; [discriminate|]. simpl in H. apply andb_prop in H as [H1 H2].
  apply Ascii.eqb_eq in H1; subst d. simpl. f_equal. now apply IH.
Qed.





Lemma map_snd_combine_seq (arr : list string) (k : nat) :
  List.map snd (combine arr (seq k (List.length arr))) = seq k (List.length arr).
Proof. revert k; induction arr as [|x arr IH]; intros k; simpl; [reflexivity|]. now rewrite IH. Qed.

Lemma NoDup_map_filter {A B : Type} (f : A -> B) (p : A -> bool) (l : list A) :
  NoDup (List.map f l) -> NoDup (List.map f (List.filter p l)).
Proof.
  induction l as [|x l IH]; simpl; intros H; [constructor|].
  inversion H as [|? ? Hx Hl]; subst.
  destruct (p x); simpl; [|now apply IH].
  constructor; [|now apply IH].
  intros Hin. apply Hx. apply in_map_iff in Hin as [y [Hy Hin]].
  apply filter_In in Hin as [Hin _]. rewrite <- Hy. now apply in_map.
Qed.

Lemma first_occurrences_NoDup (arr : list string) : NoDup (first_occurrences arr).
Proof.
  unfold first_occurrences.
  set (L := List.filter _ _).
  assert (Hs : NoDup (List.map snd L)).
  { apply NoDup_map_filter. rewrite map_snd_combine_seq. apply seq_NoDup. }
  assert (Hk : forall p, In p L -> js_indexOf (fst p) arr = Some (snd p)).
  { intros [x i] Hin. apply filter_In in Hin as [_ Hp]. simpl in *.
    destruct (js_indexOf x arr) as [j|]; [|discriminate]. apply Nat.eqb_eq in Hp. now subst. }
  set (g := fun x => match js_indexOf x arr with Some i => i | None => 0%nat end).
  assert (Hm : List.map snd L = List.map g (List.map fst L)).
  { rewrite map_map. apply map_ext_in. intros p Hp. unfold g. now rewrite (Hk p Hp). }
  rewrite Hm in Hs. exact (NoDup_map_inv g _ Hs).
Qed.

Lemma first_occurrences_incl (arr : list string) (x : string) :
  In x (first_occurrences arr) -> In x arr.
Proof.
  unfold first_occurrences. intros H. apply in_map_iff in H as [[y i] [<- Hin]].
  apply filter_In in Hin as [Hin _]. exact (in_combine_l _ _ _ _ Hin).
Qed.

Lemma in_firstn_in {A : Type} (n : nat) (l : list A) (x : A) : In x (firstn n l) -> In x l.
Proof. intros H. rewrite <- (firstn_skipn n l). apply in_or_app. now left. Qed.

Lemma NoDup_firstn {A : Type} (n : nat) (l : list A) : NoDup l -> NoDup (firstn n l).
Proof.
  revert n; induction l as [|x l IH]; intros n H; destruct n; simpl; [constructor..|].
  inversion H as [|? ? Hx Hl]; subst. constructor; [|now apply IH].
  intros Hin. apply Hx. exact (in_firstn_in _ _ _ Hin).
Qed.

Lemma specialties_of_nonempty (languages : list string) : specialties_of languages <> [].
Proof.
  unfold specialties_of. cbv zeta.
  match goal with |- (match ?x with _ => _ end) <> [] => destruct x end; discriminate.
Qed.

Lemma repo_languages_spec (repos : list Repo) :
  NoDup (repo_languages repos) /\ (List.length (repo_languages repos) <= 5)%nat /\
  (forall l, In l (repo_languages repos) ->
     l <> "" /\ exists r, In r repos /\ r_language r = Some l) /\
  specialties_of (repo_languages repos) <> [].
Proof.
  unfold repo_languages. split; [apply NoDup_firstn, first_occurrences_NoDup|].
  split; [apply firstn_le_length|].
  split; [|apply specialties_of_nonempty].
  intros l Hin. apply in_firstn_in, first_occurrences_incl, in_flat_map in Hin as [r [Hr Hl]].
  destruct (r_language r) as [l'|] eqn:El; [|destruct Hl].
  destruct (String.eqb l' "") eqn:Ee; [destruct Hl|].
  destruct Hl as [<-|[]]. split; [now apply String.eqb_neq|]. now exists r.
Qed.

Lemma parseInt10_nonneg (ds : list ascii) :
  Forall (fun c => is_digit c = true) ds -> (0 <= parseInt10 ds)%Z.
Proof.
  unfold parseInt10. intros Hd.
  enough (forall acc, (0 <= acc)%Z ->
            (0 <= fold_left (fun acc c => acc * 10 + (char_code c - 48))%Z ds acc)%Z) by (apply H; lia).
  induction Hd as [|c ds Hc Hds IH]; intros acc Ha; simpl; [exact Ha|].
  apply IH. unfold is_digit, char_between in Hc. apply andb_prop in Hc as [H1 _].
  apply Nat.leb_le in H1. unfold char_code. lia.
Qed.

Lemma match_page_at_digits (l ds : list ascii) :
  match_page_at l = Some ds -> Forall (fun c => is_digit c = true) ds.
Proof.
  unfold match_page_at. intros H.
  destruct (starts_with _ l); [|discriminate].
  destruct (take_while_split is_digit (skipn 5 l)) as [Hf _].
  destruct (take_while is_digit (skipn 5 l)) as [|d ds'] eqn:E; [simpl in H; discriminate|].
  match type of H with context [skipn (5 + ?k) l] =>
    destruct (skipn (5 + k) l) as [|ch0 rest0] end; [discriminate|].
  destruct (Ascii.eqb ch0 ">" && rel_last_ahead rest0); [|discriminate].
  injection H as <-. exact Hf.
Qed.

Lemma link_last_page_digits (l ds : list ascii) :
  link_last_page l = Some ds -> Forall (fun c => is_digit c = true) ds.
Proof.
  induction l as [|c l IH]; simpl; [discriminate|].
  destruct (match_page_at (c :: l)) as [ds'|] eqn:E.
  - intros H. injection H as <-. exact (match_page_at_digits _ _ E).
  - exact IH.
Qed.

Lemma getCeloRepoContributionCount_nonneg (resp : CountResponse) :
  (0 <= getCeloRepoContributionCount resp)%Z.
Proof.
  destruct resp as [| |link body]; simpl; try lia.
  destruct (link_last_page _) as [ds|] eqn:E.
  - exact (parseInt10_nonneg _ (link_last_page_digits _ _ E)).
  - destruct body as [n|]; [destruct (Nat.ltb 0 n)|]; lia.
Qed.

Lemma detectCeloContributions_sound countResp fileResp (repos : list Repo) :
  (List.length (detectCeloContributions countResp fileResp repos) <= List.length repos)%nat /\
  forall c, In c (detectCeloContributions countResp fileResp repos) ->
    exists r, In r repos /\ c = celo_entry countResp r (isCeloRepo c).
Proof.
  assert (Hone : forall r, (List.length (detect_one countResp fileResp r) <= 1)%nat /\
            forall c, In c (detect_one countResp fileResp r) -> c = celo_entry countResp r (isCeloRepo c)).
  { intros r. unfold detect_one. cbv zeta.
    destruct (_ || _); [split; [simpl; lia| intros c [<-|[]]; reflexivity]|].
    destruct (existsb _ content_languages); [|split; [simpl; lia|intros c []]].
    destruct (checkRepoContentForCelo _); [split; [simpl; lia| intros c [<-|[]]; reflexivity]|].
    split; [simpl; lia|intros c []]. }
  unfold detectCeloContributions. split.
  - induction repos as [|r repos IH]; simpl; [lia|].
    rewrite length_app. destruct (Hone r) as [H _]. lia.
  - intros c Hin. apply in_flat_map in Hin as [r [Hr Hc]].
    exists r. split; [exact Hr|]. exact (proj2 (Hone r) c Hc).
Qed.

Lemma analyzeGitHubLink_wf (githubUrl : string) (userData : GitHubUserData) (repos : list Repo)
    countResp fileResp (a : ContributionAnalysis) (e : AnalysisExtras) :
  0 <= gu_followers userData ->
  Forall (fun r => 0 <= num_or_zero (r_stargazers_count r)) repos ->
  analyzeGitHubLink githubUrl (Some userData) (Some repos) countResp fileResp = Some (a, e) ->
  analysis_wf a.
Proof.
  intros Hf Hs H. unfold analyzeGitHubLink in H.
  destruct (match_username _); [|discriminate].
  injection H as <- _. cbv zeta.
  unfold analysis_wf; cbn [hasCeloContribution celoContributionCount followers celoContributions].
  split; [destruct (List.length _); reflexivity|].
  split; [unfold sum_counts; apply Qeq_refl|].
  split; [exact Hf|].
  apply Forall_forall. intros c Hc.
  destruct (proj2 (detectCeloContributions_sound countResp fileResp repos) c Hc) as [r [Hr ->]].
  unfold celo_entry; cbn [contributionCount stars]. split.
  - change 0 with (inject_Z 0). rewrite <- Zle_Qle. apply getCeloRepoContributionCount_nonneg.
  - rewrite Forall_forall in Hs. exact (Hs r Hr).
Qed.

Lemma analyzeGitHubLink_wf_witness :
  0 <= gu_followers {| gu_login := "alice"; gu_public_repos := 3; gu_followers := 7; gu_bio := None |} /\
  Forall (fun r => 0 <= num_or_zero (r_stargazers_count r)) [ex_repo] /\
  exists a e,
    analyzeGitHubLink "https://github.com/alice"
      (Some {| gu_login := "alice"; gu_public_repos := 3; gu_followers := 7; gu_bio := None |})
      (Some [ex_repo]) (fun _ _ => CountOk None (Some 1%nat)) (fun _ _ _ => None) = Some (a, e) /\
    analysis_wf a.
Proof.
  split; [vm_compute; discriminate|]. split; [repeat constructor; vm_compute; discriminate|].
  destruct (analyzeGitHubLink "https://github.com/alice"
      (Some {| gu_login := "alice"; gu_public_repos := 3; gu_followers := 7; gu_bio := None |})
      (Some [ex_repo]) (fun _ _ => CountOk None (Some 1%nat)) (fun _ _ _ => None)) as [[a e]|] eqn:E;
    [|vm_compute in E; discriminate].
  exists a, e. split; [reflexivity|].
  refine (analyzeGitHubLink_wf _ _ _ _ _ a e _ _ E); [vm_compute; discriminate|].
  repeat constructor; vm_compute; discriminate.
Defined.

Lemma detectCeloContributions_finds_celo countResp fileResp (repos : list Repo) (r : Repo) :
  In r repos ->
  (includes (js_toLowerCase (r_name r)) "celo" = true \/
   includes (js_toLowerCase (or_empty (r_description r))) "celo" = true \/
   includes (js_toLowerCase (r_owner_login r)) "celo" = true \/
   (exists t, In t (match r_topics r with Some ts => ts | None => [] end) /\
              includes (js_toLowerCase t) "celo" = true)) ->
  In (celo_entry countResp r
        (existsb (fun org => includes (js_toLowerCase (r_owner_login r)) org) CELO_ORGS))
     (detectCeloContributions countResp fileResp repos).
Proof.
  intros Hr Hc. unfold detectCeloContributions. apply in_flat_map. exists r. split; [exact Hr|].
  unfold detect_one. cbv zeta.
  replace (existsb _ CELO_ORGS || existsb _ CELO_KEYWORDS) with true; [now left|].
  symmetry. apply orb_true_iff.
  destruct Hc as [H|[H|[H|[t [Ht H]]]]].
  - right. unfold CELO_KEYWORDS. cbn [existsb]. change (js_toLowerCase "celo") with "celo".
    now rewrite H.
  - right. unfold CELO_KEYWORDS. cbn [existsb]. change (js_toLowerCase "celo") with "celo".
    rewrite H. now rewrite orb_true_r.
  - left. unfold CELO_ORGS. cbn [existsb]. now rewrite H.
  - right. unfold CELO_KEYWORDS. cbn [existsb]. change (js_toLowerCase "celo") with "celo".
    replace (existsb (fun t => includes t "celo") (List.map js_toLowerCase _)) with true;
      [now rewrite !orb_true_r|].
    symmetry. apply existsb_exists. exists (js_toLowerCase t). split; [now apply in_map|exact H].
Qed.

Lemma detectCeloContributions_finds_celo_witness :
  In ex_repo [ex_repo] /\
  In (celo_entry (fun _ _ => CountNotOk) ex_repo
        (existsb (fun org => includes (js_toLowerCase (r_owner_login ex_repo)) org) CELO_ORGS))
     (detectCeloContributions (fun _ _ => CountNotOk) (fun _ _ _ => None) [ex_repo]).
Proof.
  split; [now left|].
  apply detectCeloContributions_finds_celo; [now left|].
  left. vm_compute. reflexivity.
Defined.

Lemma skipn_length_app {A : Type} (t r : list A) : skipn (List.length t) (app t r) = r.
Proof. induction t as [|x t IH]; simpl; [reflexivity|exact IH]. Qed.

Lemma take_while_stop (p : ascii -> bool) (ds : list ascii) (c : ascii) (t : list ascii) :
  Forall (fun x => p x = true) ds -> p c = false -> take_while p (app ds (c :: t)) = ds.
Proof.
  intros Hd Hc. induction Hd as [|x ds Hx _ IH]; simpl; [now rewrite Hc|]. now rewrite Hx, IH.
Qed.

Lemma match_page_at_shape (l d : list ascii) :
  match_page_at l = Some d ->
  exists rest, l = app page_eq (app d (">"%char :: rest)) /\
    Forall (fun c => is_digit c = true) d /\ d <> [] /\ rel_last_ahead rest = true.
Proof.
  unfold match_page_at. intros H.
  destruct (starts_with _ l) eqn:Es; [|discriminate].
  pose proof (starts_with_app _ _ Es) as El. cbn [List.length list_ascii_of_string] in El.
  destruct (take_while_split is_digit (skipn 5 l)) as [Hf [rest [He _]]].
  destruct (take_while is_digit (skipn 5 l)) as [|d0 ds'] eqn:E; [simpl in H; discriminate|].
  assert (Hk : skipn (5 + List.length (d0 :: ds')) l = rest).
  { rewrite Nat.add_comm, <- skipn_skipn, He. apply skipn_length_app. }
  rewrite Hk in H. destruct rest as [|ch rest0]; [discriminate|].
  destruct (Ascii.eqb ch ">" && rel_last_ahead rest0) eqn:Eg; [|discriminate].
  injection H as <-. apply andb_prop in Eg as [Eg1 Eg2]. apply Ascii.eqb_eq in Eg1; subst ch.
  exists rest0. split; [|split; [exact Hf|split; [discriminate|exact Eg2]]].
  rewrite El at 1. unfold page_eq. cbn [list_ascii_of_string app]. rewrite He. reflexivity.
Qed.

Lemma first_gt_unique (x y r1 r2 : list ascii) :
  ~ In ">"%char x -> ~ In ">"%char y ->
  app x (">"%char :: r1) = app y (">"%char :: r2) -> x = y.
Proof.
  revert y; induction x as [|a x IH]; intros y Hx Hy H; destruct y as [|b y]; simpl in H.
  - reflexivity.
  - injection H as <- _. exfalso. apply Hy. now left.
  - injection H as -> _. exfalso. apply Hx. now left.
  - injection H as <- H. f_equal. apply IH; [intros Hi; apply Hx; now right|intros Hi; apply Hy; now right|exact H].
Qed.

Lemma digits_no_gt (d : list ascii) : Forall (fun c => is_digit c = true) d -> ~ In ">"%char d.
Proof. intros Hd Hi. rewrite Forall_forall in Hd. specialize (Hd _ Hi). discriminate. Qed.

Lemma not_in_app_gt (x y : list ascii) : ~ In ">"%char x -> ~ In ">"%char y -> ~ In ">"%char (app x y).
Proof. intros Hx Hy Hi. apply in_app_or in Hi as [Hi|Hi]; auto. Qed.

Lemma page_eq_no_gt : ~ In ">"%char page_eq.
Proof. unfold page_eq; simpl. intros Hi. repeat destruct Hi as [Hi|Hi]; try discriminate; exact Hi. Qed.

Lemma match_page_at_not_inside (w ds tail : list ascii) :
  w <> [] -> ~ In ">"%char w -> Forall (fun c => is_digit c = true) ds ->
  match_page_at (app w (app page_eq (app ds (">"%char :: tail)))) = None.
Proof.
  intros Hw Hnw Hd.
  destruct (match_page_at _) as [d|] eqn:E; [exfalso|reflexivity].
  destruct (match_page_at_shape _ _ E) as [rest [Heq [Hd' _]]].
  rewrite !app_assoc in Heq.
  apply first_gt_unique in Heq;
    [| repeat apply not_in_app_gt; auto using page_eq_no_gt, digits_no_gt
     | apply not_in_app_gt; auto using page_eq_no_gt, digits_no_gt].
  assert (Hn := f_equal (fun l => nth_error l (List.length w)) Heq). cbv beta in Hn.
  rewrite <- app_assoc, nth_error_app2, Nat.sub_diag in Hn by lia.
  change (nth_error (app page_eq ds) 0) with (Some "p"%char) in Hn.
  destruct (Nat.lt_ge_cases (List.length w) 5) as [Hlt|Hge].
  - destruct w as [|a [|b [|c [|e [|f w]]]]]; [now destruct Hw| | | | |simpl in Hlt; lia];
      cbn in Hn; discriminate.
  - rewrite nth_error_app2 in Hn by (unfold page_eq; simpl; lia).
    symmetry in Hn. apply nth_error_In in Hn. rewrite Forall_forall in Hd'. specialize (Hd' _ Hn). discriminate.
Qed.

Lemma link_last_page_skip (w ds tail : list ascii) :
  ~ In ">"%char w -> Forall (fun c => is_digit c = true) ds ->
  link_last_page (app w (app page_eq (app ds (">"%char :: tail)))) =
  link_last_page (app page_eq (app ds (">"%char :: tail))).
Proof.
  induction w as [|a w IH]; intros Hw Hd; [reflexivity|].
  change (app (a :: w) ?r) with (a :: app w r). cbn [link_last_page].
  change (a :: app w ?r) with (app (a :: w) r).
  rewrite match_page_at_not_inside by (discriminate || assumption).
  apply IH; [intros Hi; apply Hw; now right|exact Hd].
Qed.

Lemma getCeloRepoContributionCount_first_page (u1 ds tail : list ascii) (body : option nat) :
  ~ In ">"%char u1 -> ds <> [] -> Forall (fun c => is_digit c = true) ds ->
  rel_last_ahead tail = true ->
  getCeloRepoContributionCount
    (CountOk (Some (string_of_list_ascii
       ("<"%char :: app u1 (app page_eq (app ds (">"%char :: tail)))))) body) = parseInt10 ds.
Proof.
  intros Hu Hne Hd Ht. unfold getCeloRepoContributionCount.
  rewrite list_ascii_of_string_of_list_ascii.
  change ("<"%char :: app u1 ?r) with (app ("<"%char :: u1) r).
  rewrite link_last_page_skip; [|intros [Hi|Hi]; [discriminate|exact (Hu Hi)]|exact Hd].
  unfold page_eq. cbn [list_ascii_of_string app link_last_page].
  unfold match_page_at. cbn [list_ascii_of_string starts_with Ascii.eqb andb].
  fold (app ds (">"%char :: tail)).
  cbn [skipn].
  rewrite (take_while_stop _ _ _ _ Hd) by reflexivity.
  destruct ds as [|d0 ds']; [now destruct Hne|].
  replace (skipn (5 + List.length (d0 :: ds')) _) with (">"%char :: tail).
  2:{ symmetry. change (5 + List.length (d0 :: ds'))%nat with (5 + List.length (d0 :: ds'))%nat.
      cbn [skipn Nat.add]. exact (skipn_length_app (d0 :: ds') (">"%char :: tail)). }
  rewrite Ht. reflexivity.
Qed.

Lemma getCeloRepoContributionCount_first_page_witness :
  ~ In ">"%char ex_link_base /\ ["2"%char] <> [] /\
  Forall (fun c => is_digit c = true) ["2"%char] /\ rel_last_ahead ex_link_tail = true /\
  getCeloRepoContributionCount
    (CountOk (Some (string_of_list_ascii
       ("<"%char :: app ex_link_base (app page_eq (app ["2"%char] (">"%char :: ex_link_tail))))))
       (Some 1%nat)) = parseInt10 ["2"%char].
Proof.
  assert (Hb : ~ In ">"%char ex_link_base).
  { intros Hi. assert (Hc : existsb (Ascii.eqb ">") ex_link_base = true)
      by (apply existsb_exists; exists ">"%char; split; [exact Hi|reflexivity]).
    vm_compute in Hc. discriminate. }
  assert (Ht : rel_last_ahead ex_link_tail = true) by (vm_compute; reflexivity).
  split; [exact Hb|]. split; [discriminate|]. split; [repeat constructor|]. split; [exact Ht|].
  apply getCeloRepoContributionCount_first_page; [exact Hb|discriminate|repeat constructor|exact Ht].
Defined.

(** ** Stored contribution rows *)

Lemma js_toLowerCase_idem (s : string) : js_toLowerCase (js_toLowerCase s) = js_toLowerCase s.
Proof.
  unfold js_toLowerCase. rewrite list_ascii_of_string_of_list_ascii, List.map_map.
  f_equal. apply List.map_ext, js_lower_char_idem.
Qed.

Lemma saveContribution_table_ok (k : nat) (tbl : list StoredContribution) (ok : bool)
    (u t : string) (sc : Z) (l st : string) :
  table_ok k tbl -> sc <> 0%Z ->
  table_ok (S k) (snd (saveContribution tbl k ok u t sc l st)).
Proof.
  intros [Hr [Hi Hn]] Hsc.
  assert (Hmono : Forall (fun c => (sc_id c < S k)%nat) tbl).
  { eapply Forall_impl; [|exact Hi]. simpl; intros; lia. }
  unfold saveContribution.
  destruct (String.eqb u ""); [split; auto|].
  destruct (String.eqb t ""); [split; auto|].
  destruct (sc <? 0)%Z eqn:Eneg; [split; auto|apply Z.ltb_ge in Eneg].
  destruct (String.eqb l ""); [split; auto|].
  destruct (negb ok); [split; auto|]. cbn [snd].
  split; [|split].
  - apply Forall_app; split; [exact Hr|]. constructor; [|constructor].
    unfold row_ok; cbn. split; [lia|]. split; [apply js_toLowerCase_idem|]. left; split; reflexivity.
  - apply Forall_app; split; [exact Hmono|]. constructor; [|constructor]. simpl; lia.
  - rewrite List.map_app. apply NoDup_app; [exact Hn|repeat constructor; simpl; tauto|].
    intros x Hx Hy. simpl in Hy. destruct Hy as [<-|[]].
    apply in_map_iff in Hx as [c [Hc Hin]]. rewrite Forall_forall in Hi.
    specialize (Hi c Hin). lia.
Qed.

Lemma updateContributionWithTx_table_ok (k : nat) (tbl : list StoredContribution) (u : string)
    (sc : Z) (tx : string) (ok : bool) :
  table_ok k tbl -> table_ok k (snd (updateContributionWithTx tbl u sc tx ok)).
Proof.
  intros [Hr [Hi Hn]]. unfold updateContributionWithTx. cbv zeta.
  destruct (negb ok); [split; auto|].
  destruct (most_recent _) as [c|]; [|split; auto].
  assert (Hm : table_ok k (List.map (mark_verified (sc_id c) tx) tbl)).
  { split; [|split].
    - apply Forall_map. eapply Forall_impl; [|exact Hr]. intros x Hx.
      unfold mark_verified. destruct (Nat.eqb (sc_id x) (sc_id c)); [|exact Hx].
      destruct Hx as [H1 [H2 _]]. unfold row_ok; cbn. split; [exact H1|]. split; [exact H2|].
      right. split; [reflexivity|]. now exists tx.
    - apply Forall_map. eapply Forall_impl; [|exact Hi]. intros x Hx.
      unfold mark_verified. now destruct (Nat.eqb (sc_id x) (sc_id c)).
    - rewrite List.map_map.
      replace (List.map (fun x => sc_id (mark_verified (sc_id c) tx x)) tbl) with (List.map sc_id tbl);
        [exact Hn|].
      apply List.map_ext. intros x. unfold mark_verified. now destruct (Nat.eqb (sc_id x) (sc_id c)). }
  destruct (String.eqb tx ""); exact Hm.
Qed.

Lemma table_ok_succ (k : nat) (tbl : list StoredContribution) : table_ok k tbl -> table_ok (S k) tbl.
Proof.
  intros [Hr [Hi Hn]]. split; [exact Hr|]. split; [|exact Hn].
  eapply Forall_impl; [|exact Hi]. simpl; intros; lia.
Qed.

Lemma submit_after_ownership_contributions (db : Db) (k : nat) (now : string) (o : DbOutcomes)
    (p t l : string) (ai : AIVerificationResult) (b : Q) (w : bool) :
  contributions (snd (submit_after_ownership db k now o p t l ai b w)) = contributions db \/
  exists sc st, sc <> 0%Z /\
    contributions (snd (submit_after_ownership db k now o p t l ai b w)) =
    snd (saveContribution (contributions db) k (insertOk o) (js_toLowerCase p) t sc l st).
Proof.
  unfold submit_after_ownership. cbv zeta.
  destruct (Z.eqb (calculateFinalScore ai b w) 0 || String.eqb (recommendation ai) "reject") eqn:E;
    [now left|].
  right. apply orb_false_iff in E as [E _]. apply Z.eqb_neq in E.
  exists (calculateFinalScore ai b w),
         (if String.eqb (recommendation ai) "accept" then "verified" else "pending").
  split; [exact E|].
  destruct (saveContribution _ _ _ _ _ _ _ _) as [ok1 tbl1]. reflexivity.
Qed.

Lemma submission_flow_table_ok (db : Db) (k : nat) (now : string) (s : Submission) :
  table_ok k (contributions db) -> table_ok (S k) (contributions (fst (submission_flow db k now s))).
Proof.
  intros H. unfold submission_flow.
  pose proof (submit_after_ownership_contributions db k now (s_db s) (s_address s) (s_type s)
                (s_link s) (s_ai s) (s_base s) true) as Hs.
  assert (H1 : table_ok (S k) (contributions (snd (submit_after_ownership db k now (s_db s)
                 (s_address s) (s_type s) (s_link s) (s_ai s) (s_base s) true)))).
  { destruct Hs as [-> | (sc & st & Hsc & ->)]; [now apply table_ok_succ|].
    now apply saveContribution_table_ok. }
  destruct (submit_after_ownership _ _ _ _ _ _ _ _ _ _) as [[st|sc nt tier cs] db1]; cbn [snd] in H1;
    [exact H1|].
  destruct (_ && _); [|exact H1].
  destruct (s_chain s); [|exact H1].
  cbn [fst set_contributions contributions]. now apply updateContributionWithTx_table_ok.
Qed.

Lemma run_from_table_ok (db : Db) (k : nat) (now : string) (subs : list Submission) :
  table_ok k (contributions db) ->
  exists k', table_ok k' (contributions (run_from db k now subs)).
Proof.
  revert db k; induction subs as [|s subs IH]; intros db k H; simpl; [now exists k|].
  apply IH. now apply submission_flow_table_ok.
Qed.

Lemma table_ok_empty : table_ok 0 (contributions empty_db).
Proof. split; [constructor|]. split; [constructor|constructor]. Qed.

(** Every row that the submission flow stores has a fresh id, a positive score, a lower-case
    address, and is either pending without a transaction or verified with one. *)
Lemma stored_rows_invariant (now : string) (subs : list Submission) :
  let tbl := contributions (run_from empty_db 0 now subs) in
  NoDup (List.map sc_id tbl) /\
  Forall (fun c =>
    (0 < sc_score c)%Z /\ js_toLowerCase (sc_user_address c) = sc_user_address c /\
    ((sc_status c = "pending" /\ sc_on_chain_tx c = None) \/
     (sc_status c = "verified" /\ exists tx, sc_on_chain_tx c = Some tx))) tbl.
Proof.
  destruct (run_from_table_ok empty_db 0 now subs table_ok_empty) as [k [Hr [_ Hn]]].
  cbv zeta. split; [exact Hn|exact Hr].
Qed.

(** ** Marking a contribution verified *)

Lemma most_recent_none (l : list StoredContribution) : most_recent l = None -> l = [].
Proof.
  unfold most_recent. destruct l as [|x l]; [reflexivity|]. simpl.
  assert (G : forall acc, acc <> None -> fold_left (fun acc c => match acc with
                          | Some d => if Nat.ltb (sc_id d) (sc_id c) then Some c else Some d
                          | None => Some c end) l acc <> None).
  { induction l as [|y l IH]; intros acc Ha; simpl; [exact Ha|]. apply IH.
    destruct acc as [d|]; [|discriminate]. destruct (Nat.ltb _ _); discriminate. }
  intros H. exfalso. exact (G (Some x) ltac:(discriminate) H).
Qed.

(** With distinct row ids, [updateContributionWithTx] changes at most one row:
    either the table is unchanged (the call failed or no row of that address
    and score is pending), or exactly the pending row of that address and
    score with the largest id is marked verified with the transaction. *)
Lemma updateContributionWithTx_one_row (tbl : list StoredContribution) (u : string) (sc : Z)
    (tx : string) (ok : bool) :
  NoDup (List.map sc_id tbl) ->
  (snd (updateContributionWithTx tbl u sc tx ok) = tbl /\
   (ok = false \/ forall d, In d tbl -> pending_match u sc d = false)) \/
  (exists pre c post,
     tbl = (pre ++ c :: post)%list /\
     snd (updateContributionWithTx tbl u sc tx ok) = (pre ++ mark_verified (sc_id c) tx c :: post)%list /\
     sc_status c = "pending" /\ sc_user_address c = js_toLowerCase u /\ sc_score c = sc /\
     forall d, In d tbl -> pending_match u sc d = true -> (sc_id d <= sc_id c)%nat).
Proof.
  intros Hnd. unfold updateContributionWithTx. cbv zeta.
  destruct ok; cbn [negb]; [|left; split; [reflexivity|now left]].
  destruct (most_recent _) as [c|] eqn:Hm.
  - right. pose proof (most_recent_in _ _ Hm) as Hin.
    pose proof (most_recent_max _ _ Hm) as Hmax.
    apply filter_In in Hin as [Hin Hf].
    apply in_split in Hin as (pre & post & Ht).
    exists pre, c, post.
    assert (Hmap : List.map (mark_verified (sc_id c) tx) tbl =
                   (pre ++ mark_verified (sc_id c) tx c :: post)%list).
    { subst tbl. rewrite List.map_app. cbn [List.map].
      rewrite List.map_app in Hnd. cbn [List.map] in Hnd.
      apply NoDup_remove_2 in Hnd.
      assert (Hid : forall l, incl l (pre ++ post)%list -> List.map (mark_verified (sc_id c) tx) l = l).
      { intros l Hl. rewrite <- (List.map_id l) at 2. apply map_ext_in. intros d Hd.
        unfold mark_verified. destruct (Nat.eqb (sc_id d) (sc_id c)) eqn:E; [|reflexivity].
        apply Nat.eqb_eq in E. exfalso. apply Hnd. rewrite <- E, <- List.map_app.
        apply in_map, Hl, Hd. }
      rewrite !Hid by (intros d Hd; apply in_app_iff; tauto).
      reflexivity. }
    split; [exact Ht|]. split; [destruct (String.eqb tx ""); exact Hmap|].
    unfold andb in Hf.
    destruct (String.eqb (sc_user_address c) _) eqn:E1; [|discriminate].
    destruct (Z.eqb (sc_score c) sc) eqn:E2; [|discriminate].
    apply String.eqb_eq in E1, Hf. apply Z.eqb_eq in E2.
    split; [exact Hf|]. split; [exact E1|]. split; [exact E2|].
    intros d Hd Hp. apply Hmax, filter_In. split; [exact Hd|exact Hp].
  - left. split; [reflexivity|]. right. intros d Hd.
    apply most_recent_none in Hm.
    destruct (pending_match u sc d) eqn:E; [|reflexivity].
    assert (In d (filter (fun c => String.eqb (sc_user_address c) (js_toLowerCase u)
                     && Z.eqb (sc_score c) sc && String.eqb (sc_status c) "pending") tbl))
      by (apply filter_In; split; [exact Hd|exact E]).
    rewrite Hm in H. destruct H.
Qed.

Lemma map_eq_pointwise {A B} (f g : A -> B) (l : list A) :
  List.map f l = List.map g l -> forall x, In x l -> f x = g x.
Proof.
  induction l as [|y l IH]; intros H x Hx; [destruct Hx|].
  simpl in H. injection H as H1 H2. destruct Hx as [<-|Hx]; [exact H1|now apply IH].
Qed.

Lemma filter_map_mark (tbl : list StoredContribution) (a : string) (target : nat) (tx : string) :
  filter (fun c => String.eqb (sc_user_address c) a) (List.map (mark_verified target tx) tbl) =
  List.map (mark_verified target tx) (filter (fun c => String.eqb (sc_user_address c) a) tbl).
Proof.
  induction tbl as [|c tbl IH]; [reflexivity|]. simpl.
  replace (sc_user_address (mark_verified target tx c)) with (sc_user_address c)
    by (unfold mark_verified; now destruct (Nat.eqb _ _)).
  destruct (String.eqb (sc_user_address c) a); simpl; now rewrite IH.
Qed.

(** When two pending rows of the user have the submitted score, the statuses
    the form shows after [updateLocalContributionStatus] differ from the
    statuses reloaded after [updateContributionWithTx]: the local update
    marks both rows, the database only one. *)
Lemma local_status_update_diverges (tbl : list StoredContribution) (u : string) (sc : Z) (tx : string)
    (c1 c2 : StoredContribution) :
  u <> "" -> In c1 tbl -> In c2 tbl -> sc_id c1 <> sc_id c2 ->
  pending_match u sc c1 = true -> pending_match u sc c2 = true ->
  match getUserContributions tbl true u,
        getUserContributions (snd (updateContributionWithTx tbl u sc tx true)) true u with
  | Some rows, Some rows' =>
      List.map sc_status (updateLocalContributionStatus rows sc tx) <> List.map sc_status rows'
  | _, _ => False
  end.
Proof.
  intros Hu H1 H2 Hne P1 P2. unfold getUserContributions.
  apply String.eqb_neq in Hu. rewrite Hu.
  unfold updateContributionWithTx. cbv zeta. cbn [negb].
  destruct (most_recent _) as [t|] eqn:Hm.
  2:{ apply most_recent_none in Hm.
      assert (In c1 []) as [] . rewrite <- Hm. apply filter_In. split; [exact H1|exact P1]. }
  set (F := filter (fun c => String.eqb (sc_user_address c) (js_toLowerCase u)) tbl).
  assert (Hc : exists c, In c tbl /\ pending_match u sc c = true /\ sc_id c <> sc_id t).
  { destruct (Nat.eq_dec (sc_id c1) (sc_id t)) as [E|E]; [exists c2|exists c1]; repeat split; auto.
    intros E2. apply Hne. congruence. }
  destruct Hc as (c & Hc & Pc & Hct).
  assert (HF : In c (rev F)) by (apply in_rev; rewrite rev_involutive; apply filter_In; split;
    [exact Hc|unfold pending_match in Pc; now apply andb_prop in Pc as [Pc _]; apply andb_prop in Pc as [Pc _]]).
  intros Heq.
  assert (Hrows : List.map sc_status (updateLocalContributionStatus (rev F) sc tx) =
                  List.map sc_status (List.map (mark_verified (sc_id t) tx) (rev F))).
  { fold F in Heq. rewrite Heq. destruct (String.eqb tx ""); cbn [snd] in *;
      rewrite filter_map_mark; fold F;
      f_equal; symmetry; apply List.map_rev. }
  unfold updateLocalContributionStatus in Hrows. rewrite !List.map_map in Hrows.
  pose proof (map_eq_pointwise _ _ _ Hrows c HF) as Hp. cbv beta in Hp.
  unfold pending_match in Pc. apply andb_prop in Pc as [Pc Ps]. apply andb_prop in Pc as [_ Psc].
  rewrite Psc, Ps in Hp. unfold mark_verified in Hp.
  apply Nat.eqb_neq in Hct. rewrite Hct in Hp. cbn in Hp.
  apply String.eqb_eq in Ps. rewrite <- Hp in Ps. discriminate.
Qed.

Lemma fold_total_acc (l : list StoredContribution) (a : Z) :
  fold_left (fun sum c => sum + sc_score c)%Z l a = (a + fold_left (fun sum c => sum + sc_score c)%Z l 0)%Z.
Proof.
  revert a; induction l as [|c l IH]; intros a; cbn [fold_left]; [lia|].
  rewrite IH, (IH (0 + sc_score c)%Z). lia.
Qed.

Lemma fold_verified_acc (l : list StoredContribution) (a : Z) :
  fold_left (fun sum c => if String.eqb (sc_status c) "verified" then (sum + sc_score c)%Z else sum) l a =
  (a + fold_left (fun sum c => if String.eqb (sc_status c) "verified" then (sum + sc_score c)%Z else sum) l 0)%Z.
Proof.
  revert a; induction l as [|c l IH]; intros a; cbn [fold_left]; [lia|].
  destruct (String.eqb (sc_status c) "verified");
    [rewrite IH, (IH (0 + sc_score c)%Z); lia|rewrite IH; lia].
Qed.

Lemma verified_sum_le_total (rows : list StoredContribution) :
  Forall (fun c => 0 < sc_score c)%Z rows ->
  let v := fold_left (fun sum c => if String.eqb (sc_status c) "verified"
                                   then (sum + sc_score c)%Z else sum) rows 0%Z in
  let t := fold_left (fun sum c => sum + sc_score c)%Z rows 0%Z in
  (v <= t)%Z /\ (v = t <-> Forall (fun c => sc_status c = "verified") rows).
Proof.
  cbv zeta. induction rows as [|c l IH]; intros Hp; [cbn; split; [lia|split; constructor]|].
  inversion Hp as [|? ? Hc Hl]; subst. specialize (IH Hl) as [IHle IHeq].
  cbn [fold_left]. rewrite fold_total_acc, fold_verified_acc.
  destruct (String.eqb (sc_status c) "verified") eqn:Ev.
  - rewrite fold_verified_acc. split; [lia|]. split.
    + intros H. constructor; [now apply String.eqb_eq|]. apply IHeq. lia.
    + intros H. inversion H; subst. apply IHeq in H3. lia.
  - split; [lia|]. split; [lia|].
    intros H. inversion H as [|? ? Hv]; subst. apply String.eqb_neq in Ev. contradiction.
Qed.

Lemma fetchScore_total_rows (rows : list StoredContribution) :
  Forall (fun c => 0 < sc_score c)%Z rows ->
  (fetchScore (Some rows) <= mySubmissions_total (Some rows))%Z /\
  (fetchScore (Some rows) = mySubmissions_total (Some rows) <->
   Forall (fun c => sc_status c = "verified") rows).
Proof.
  intros Hp. unfold fetchScore, mySubmissions_total.
  destruct rows as [|c l]; [cbn; split; [lia|split; constructor]|].
  exact (verified_sum_le_total (c :: l) Hp).
Qed.

(** For the rows the submission flow stores, the main page's score (verified
    rows only) never exceeds the MySubmissions total, and the two are equal
    exactly when every loaded row is verified. *)
Lemma fetchScore_le_total (now : string) (subs : list Submission) (readOk : bool) (u : string) :
  let res := getUserContributions (contributions (run_from empty_db 0 now subs)) readOk u in
  (fetchScore res <= mySubmissions_total res)%Z /\
  (fetchScore res = mySubmissions_total res <->
   match res with Some rows => Forall (fun c => sc_status c = "verified") rows | None => True end).
Proof.
  destruct (run_from_table_ok empty_db 0 now subs table_ok_empty) as [k [Hr _]].
  cbv zeta. unfold getUserContributions.
  destruct (String.eqb u ""); [cbn; split; [lia|tauto]|].
  destruct readOk; [|cbn; split; [lia|tauto]].
  apply fetchScore_total_rows.
  apply Forall_rev, Forall_forall. intros c Hc. apply filter_In in Hc as [Hc _].
  rewrite Forall_forall in Hr. apply (Hr c Hc).
Qed.

Lemma updateContributionWithTx_one_row_witness :
  NoDup (List.map sc_id ex_rows) /\
  ((snd (updateContributionWithTx ex_rows "0xABC" 50 "0xt" true) = ex_rows /\
    (true = false \/ forall d, In d ex_rows -> pending_match "0xABC" 50 d = false)) \/
   (exists pre c post,
      ex_rows = (pre ++ c :: post)%list /\
      snd (updateContributionWithTx ex_rows "0xABC" 50 "0xt" true) =
        (pre ++ mark_verified (sc_id c) "0xt" c :: post)%list /\
      sc_status c = "pending" /\ sc_user_address c = js_toLowerCase "0xABC" /\ sc_score c = 50%Z /\
      forall d, In d ex_rows -> pending_match "0xABC" 50 d = true -> (sc_id d <= sc_id c)%nat)).
Proof.
  assert (Hn : NoDup (List.map sc_id ex_rows)) by (cbn; repeat constructor; cbn; intuition discriminate).
  split; [exact Hn|]. apply updateContributionWithTx_one_row. exact Hn.
Defined.

Lemma local_status_update_diverges_witness :
  ("0xABC" <> "")%string /\ In ex_row_a ex_rows /\ In ex_row_c ex_rows /\
  (sc_id ex_row_a <> sc_id ex_row_c)%nat /\
  pending_match "0xABC" 50 ex_row_a = true /\ pending_match "0xABC" 50 ex_row_c = true /\
  match getUserContributions ex_rows true "0xABC",
        getUserContributions (snd (updateContributionWithTx ex_rows "0xABC" 50 "0xt" true)) true "0xABC" with
  | Some rows, Some rows' =>
      List.map sc_status (updateLocalContributionStatus rows 50 "0xt") <> List.map sc_status rows'
  | _, _ => False
  end.
Proof.
  assert (H1 : In ex_row_a ex_rows) by (left; reflexivity).
  assert (H2 : In ex_row_c ex_rows) by (right; right; left; reflexivity).
  assert (Hi : sc_id ex_row_a <> sc_id ex_row_c) by discriminate.
  assert (Pa : pending_match "0xABC" 50 ex_row_a = true) by (vm_compute; reflexivity).
  assert (Pc : pending_match "0xABC" 50 ex_row_c = true) by (vm_compute; reflexivity).
  assert (Hu : "0xABC" <> "") by discriminate.
  do 6 (split; [assumption|]).
  exact (local_status_update_diverges ex_rows "0xABC" 50 "0xt" ex_row_a ex_row_c Hu H1 H2 Hi Pa Pc).
Defined.
